(** * LogKeeper: a shallow embedding of [src/logkeeper.ts]

    The development follows the TypeScript class [LogKeeper]:

    - the pieces of the JavaScript runtime the class relies on ([String],
      [padStart], the local-time getters of [Date], [path.join], the
      file-system calls of [node:fs]) are modelled in the modules [JS]
      and [Node];
    - the private formatters [formatFilenameTimestamp] and
      [formatLogTimestamp] are pure functions on strings;
    - the class itself is a state machine over an explicit program state:
      the heap of [LogKeeper] objects, the static field [instance], the
      queue of suspended [initializeLogger] calls, the open write streams
      and the diagnostic console. *)

From Stdlib Require Import ZArith Lia Ascii String DecimalString DecimalZ.
From stdpp Require Import base list strings.

Local Open Scope string_scope.
Local Open Scope Z_scope.
Local Open Scope list_scope.

(** ** The JavaScript values used by the class *)

Module JS.

(** [String(n)] for an integral number: its decimal numeral, with a
    leading minus sign below zero. *)
Definition String_of (n : Z) : string :=
  NilEmpty.string_of_int (Z.to_int n).

(** [count] characters taken cyclically from [filler], as
    [String.prototype.padStart] builds its prefix. *)
Fixpoint fill (count : nat) (filler rest : string) : string :=
  match count with
  | O => ""
  | S k =>
      match rest with
      | String c rest' => String c (fill k filler rest')
      | EmptyString =>
          match filler with
          | String c rest' => String c (fill k filler rest')
          | EmptyString => ""
          end
      end
  end.

(** [s.padStart(targetLength, padString)]: [s] itself when it is long
    enough or the filler is empty, otherwise the filler repeated (and cut)
    in front of [s]. *)
Definition padStart (targetLength : nat) (padString s : string) : string :=
  if (targetLength <=? String.length s)%nat then s
  else match padString with
       | EmptyString => s
       | _ => fill (targetLength - String.length s) padString padString +:+ s
       end.

(** A [Date] seen through the local-time getters the class calls.
    [getMilliseconds] is not read by the class; it is kept because two
    clock readings less than a second apart differ only there. *)
Record Date := mkDate {
  getFullYear : Z;
  getMonth : Z;
  getDate : Z;
  getHours : Z;
  getMinutes : Z;
  getSeconds : Z;
  getMilliseconds : Z
}.

(** The ranges of the getters for a valid date (ECMAScript: month from
    zero, day of month from one). *)
Definition valid_fields (d : Date) : Prop :=
  0 <= getMonth d <= 11 /\ 1 <= getDate d <= 31 /\
  0 <= getHours d <= 23 /\ 0 <= getMinutes d <= 59 /\
  0 <= getSeconds d <= 59 /\ 0 <= getMilliseconds d <= 999.

(** Days from the civil date 1970-01-01 (proleptic Gregorian calendar) to
    the given year, month (1 to 12) and day. *)
Definition days_from_civil (y m d : Z) : Z :=
  let y' := if m <=? 2 then y - 1 else y in
  let era := y' / 400 in
  let yoe := y' - era * 400 in
  let mp := (m + 9) mod 12 in
  let doy := (153 * mp + 2) / 5 + d - 1 in
  let doe := yoe * 365 + yoe / 4 - yoe / 100 + doy in
  era * 146097 + doe - 719468.

End JS.

Export JS.

(** ** The formatters of the class (private methods, pure) *)

(** [formatFilenameTimestamp(date)], lines 63 to 72: the year is printed as
    it is, the other five fields are padded to two characters. *)
Definition formatFilenameTimestamp (date : Date) : string :=
  let year := getFullYear date in
  let month := padStart 2 "0" (String_of (getMonth date + 1)) in
  let day := padStart 2 "0" (String_of (getDate date)) in
  let hours := padStart 2 "0" (String_of (getHours date)) in
  let minutes := padStart 2 "0" (String_of (getMinutes date)) in
  let seconds := padStart 2 "0" (String_of (getSeconds date)) in
  String_of year +:+ "-" +:+ month +:+ "-" +:+ day +:+ "_" +:+
  hours +:+ "-" +:+ minutes +:+ "-" +:+ seconds.

(** [formatLogTimestamp(date)], lines 74 to 80. *)
Definition formatLogTimestamp (date : Date) : string :=
  let hours := padStart 2 "0" (String_of (getHours date)) in
  let minutes := padStart 2 "0" (String_of (getMinutes date)) in
  let seconds := padStart 2 "0" (String_of (getSeconds date)) in
  hours +:+ ":" +:+ minutes +:+ ":" +:+ seconds.

(** ** The severity levels *)

(** Modelled from the spec: the module [./log-levels] that declares
    [LogLevel] is not among the sources.  The spec gives the closed
    enumeration INFO, WARNING, ERROR, CRITICAL, and the tag printed in a line
    is the member's name. *)
Inductive LogLevel := INFO | WARNING | ERROR | CRITICAL.

Definition LogLevel_text (level : LogLevel) : string :=
  match level with
  | INFO => "INFO"
  | WARNING => "WARNING"
  | ERROR => "ERROR"
  | CRITICAL => "CRITICAL"
  end.

(** ** The part of Node the class calls *)

Module Node.

(** [path.join(a, b)] on POSIX for two segments.  Normalisation leaves
    segments without dots and doubled separators as they are, which is the
    case of every path the class builds. *)
Definition join (a b : string) : string :=
  match a, b with
  | EmptyString, _ => b
  | _, EmptyString => a
  | _, _ => a +:+ "/" +:+ b
  end.

(** The directories named by a path, outermost first: ["a/b/c"] names
    ["a"], ["a/b"] and ["a/b/c"]. *)
Fixpoint ancestors_from (seen rest : string) : list string :=
  match rest with
  | EmptyString => match seen with EmptyString => [] | _ => [seen] end
  | String c rest' =>
      if Ascii.eqb c "/"
      then match seen with
           | EmptyString => ancestors_from "/" rest'
           | _ => seen :: ancestors_from (seen +:+ "/") rest'
           end
      else ancestors_from (seen +:+ String c "") rest'
  end.

Definition ancestors (path : string) : list string :=
  ancestors_from "" path.

Definition has_dir (ds : list string) (p : string) : bool :=
  existsb (String.eqb p) ds.

(** What the file system answers to a [mkdir] request.  Whether the
    operating system lets the call through is not decided by the program:
    it is an input of the model. *)
Inductive MkdirOutcome := MkdirDone | MkdirFails (error : string).

Definition add_missing (ds ps : list string) : list string :=
  fold_left (fun acc p => if has_dir acc p then acc else acc ++ [p]) ps ds.

(** [mkdir(path, { recursive })] of [node:fs/promises], at the time the
    request completes: the resulting directories and the rejection, if
    any.  With [recursive] every missing directory on the way is created
    and an existing target is not an error. *)
Definition mkdir (path : string) (recursive : bool) (o : MkdirOutcome)
    (ds : list string) : list string * option string :=
  match o with
  | MkdirFails e => (ds, Some e)
  | MkdirDone =>
      if recursive then (add_missing ds (ancestors path), None)
      else if has_dir ds path then (ds, Some "EEXIST")
      else if forallb (has_dir ds) (removelast (ancestors path))
           then (ds ++ [path], None)
           else (ds, Some "ENOENT")
  end.

(** A write stream as the class uses it: the file it appends to, how often
    [end] was called on it, and whether it has finished (flushed and its
    descriptor released). *)
Record WriteStream := mkWriteStream {
  ws_path : string;
  ws_end_calls : nat;
  ws_finished : bool
}.

(** What the stream reports to the callback of [end]. *)
Inductive EndOutcome := EndDone | EndFails (error : string).

End Node.

Export Node.

(** ** The program state *)

(** A [LogKeeper] object: its three instance fields. [writeStream] holds a
    reference into the table of streams, or [None] for [null]. *)
Record LogKeeperObj := mkLogKeeper {
  writeStream : option nat;
  logDir : string;
  logFile : string
}.

(** Everything the class reads or changes.  Objects and streams are
    referred to by their index in [heap] and [streams]; [instance] is the
    static field, [None] while it is still undefined.  [suspended] lists the
    [initializeLogger] calls waiting at [await mkdir(...)], [written] the
    chunks accepted by [write] in the order of the calls, [console] the lines
    sent to [console.error]. *)
Record State := mkState {
  heap : list LogKeeperObj;
  instance : option nat;
  suspended : list nat;
  streams : list WriteStream;
  written : list (nat * string);
  dirs : list string;
  console : list string
}.

Definition initial : State := mkState [] None [] [] [] [] [].

Definition set_heap (h : list LogKeeperObj) (s : State) : State :=
  mkState h (instance s) (suspended s) (streams s) (written s) (dirs s) (console s).
Definition set_instance (i : option nat) (s : State) : State :=
  mkState (heap s) i (suspended s) (streams s) (written s) (dirs s) (console s).
Definition set_suspended (q : list nat) (s : State) : State :=
  mkState (heap s) (instance s) q (streams s) (written s) (dirs s) (console s).
Definition set_streams (t : list WriteStream) (s : State) : State :=
  mkState (heap s) (instance s) (suspended s) t (written s) (dirs s) (console s).
Definition set_written (w : list (nat * string)) (s : State) : State :=
  mkState (heap s) (instance s) (suspended s) (streams s) w (dirs s) (console s).
Definition set_dirs (d : list string) (s : State) : State :=
  mkState (heap s) (instance s) (suspended s) (streams s) (written s) d (console s).

(** [console.error(line)]. *)
Definition console_error (line : string) (s : State) : State :=
  mkState (heap s) (instance s) (suspended s) (streams s) (written s) (dirs s)
          (console s ++ [line]).

(** [obj.writeStream] of the object at reference [this]. *)
Definition writeStream_of (s : State) (this : nat) : option nat :=
  match heap s !! this with
  | Some obj => writeStream obj
  | None => None
  end.

(** [this.writeStream = v]. *)
Definition assign_writeStream (this : nat) (v : option nat) (s : State) : State :=
  set_heap (alter (fun obj => mkLogKeeper v (logDir obj) (logFile obj)) this (heap s)) s.

(** How a synchronous call and an awaited promise end. *)
Inductive Completion := Normal | Throw (error : string).
Inductive Settled := Resolved | Rejected (error : string).

(** [createWriteStream(path, { flags: 'a', encoding: 'utf8' })]: a new stream
    appending to [path].  The call does not throw; a failing open is
    delivered later as an event of the stream, for which the class
    registers no listener. *)
Definition createWriteStream (path : string) (s : State) : State * nat :=
  (set_streams (streams s ++ [mkWriteStream path 0 false]) s,
   length (streams s)).

(** [stream.write(chunk)] on the value of a [writeStream] field.  Calling a
    method on [null] throws a TypeError.  A stream on which [end] was
    called takes no more data (the failure is delivered as an event of
    the stream, not thrown). *)
Definition write (ws : option nat) (chunk : string) (s : State)
    : State * Completion :=
  match ws with
  | None => (s, Throw "TypeError")
  | Some st =>
      match streams s !! st with
      | Some w =>
          if Nat.eqb (ws_end_calls w) 0
          then (set_written (written s ++ [(st, chunk)]) s, Normal)
          else (s, Normal)
      | None => (s, Throw "TypeError")
      end
  end.

(** [stream.end(callback)] together with the later call of [callback]: the
    stream counts the call and, unless it reports an error, has finished. *)
Definition end_stream (st : nat) (o : EndOutcome) (s : State) : State :=
  set_streams
    (alter (fun w => mkWriteStream (ws_path w) (S (ws_end_calls w))
                       (match o with EndDone => true | EndFails _ => ws_finished w end))
           st (streams s)) s.

(** The bytes appended to the file at [path]: the chunks written through
    the streams opened on it, in the order of the [write] calls. *)
Definition file_content (s : State) (path : string) : string :=
  fold_right
    (fun '(st, chunk) rest =>
       match streams s !! st with
       | Some w => if String.eqb (ws_path w) path then chunk +:+ rest else rest
       | None => rest
       end)
    "" (written s).

(** The number of lines of a text: its newline characters. *)
Fixpoint count_lines (text : string) : nat :=
  match text with
  | EmptyString => O
  | String c rest =>
      if Ascii.eqb c "010" then S (count_lines rest) else count_lines rest
  end.

Definition newline : string := String "010" "".

(** ** The class [LogKeeper] *)

(** [initializeLogger()], lines 48 to 61, is an async function: called from
    the constructor it runs up to [await mkdir(...)], where the request is
    issued and the call suspends.  Nothing after the [await] runs before the
    synchronous code that created the object has returned to the event
    loop. *)
Definition initializeLogger_start (this : nat) (s : State) : State :=
  set_suspended (suspended s ++ [this]) s.

(** The rest of [initializeLogger()], run by the event loop once the
    [mkdir] request has completed with outcome [o]: on success the stream is
    opened and stored in the object, on failure the [catch] block reports
    the error. *)
Definition initializeLogger_resume (this : nat) (o : MkdirOutcome) (s : State)
    : State :=
  match heap s !! this with
  | None => s
  | Some obj =>
      let '(ds, failure) := mkdir (logDir obj) true o (dirs s) in
      let s1 := set_dirs ds s in
      match failure with
      | Some e => console_error ("Failed to initialize LogKeeper: " +:+ e) s1
      | None =>
          let '(s2, st) := createWriteStream (logFile obj) s1 in
          assign_writeStream this (Some st) s2
      end
  end.

(** [new LogKeeper()], lines 30 to 41, with [now] the value of [new Date()].
    The promise of [initializeLogger()] never rejects (its whole body is
    inside [try]), so the [catch] handler attached in the constructor has
    nothing to report. *)
Definition new_LogKeeper (now : Date) (s : State) : State * nat :=
  let this := length (heap s) in
  let logDir := "logs" in
  let filenameTimestamp := formatFilenameTimestamp now in
  let logFile := join logDir (filenameTimestamp +:+ ".log") in
  let s1 := set_heap (heap s ++ [mkLogKeeper None logDir logFile]) s in
  (initializeLogger_start this s1, this).

(** [LogKeeper.getInstance()], lines 43 to 46. *)
Definition getInstance (now : Date) (s : State) : State * nat :=
  let '(s1, this) := new_LogKeeper now s in
  (set_instance (Some this) s1, this).

(** The text of one entry, line 91. *)
Definition logEntry (timestamp : string) (level : LogLevel) (message : string)
    : string :=
  "[" +:+ timestamp +:+ "] " +:+ LogLevel_text level +:+ ": " +:+ message
  +:+ newline.

(** [writeLog] from line 85 on, for the object [inst] that [getInstance()]
    returned; [now] is the value of [new Date()] on line 90. *)
Definition writeLog_body (inst : nat) (level : LogLevel) (message : string)
    (now : Date) (s : State) : State * Completion :=
  match writeStream_of s inst with
  | None => (console_error "LogKeeper not initialized" s, Normal)
  | Some _ =>
      let timestamp := formatLogTimestamp now in
      write (writeStream_of s inst) (logEntry timestamp level message) s
  end.

(** [LogKeeper.writeLog(level, message)], lines 82 to 94; [created] is the
    clock reading taken by the constructor. *)
Definition writeLog (level : LogLevel) (message : string) (created now : Date)
    (s : State) : State * Completion :=
  let '(s1, inst) := getInstance created s in
  writeLog_body inst level message now s1.

Definition info := writeLog INFO.
Definition warning := writeLog WARNING.
Definition error := writeLog ERROR.
Definition critical := writeLog CRITICAL.

(** [saveLogs] from line 189 on, for the object [inst]; [o] is what the
    stream passes to the callback of [end].  The awaited promise rejects
    with the error, or the field is cleared and the promise resolves. *)
Definition saveLogs_body (inst : nat) (o : EndOutcome) (s : State)
    : State * Settled :=
  match writeStream_of s inst with
  | Some st =>
      let s1 := end_stream st o s in
      match o with
      | EndFails e => (s1, Rejected e)
      | EndDone => (assign_writeStream inst None s1, Resolved)
      end
  | None => (s, Resolved)
  end.

(** [LogKeeper.saveLogs()], lines 186 to 201. *)
Definition saveLogs (created : Date) (o : EndOutcome) (s : State)
    : State * Settled :=
  let '(s1, inst) := getInstance created s in
  saveLogs_body inst o s1.

(** ** Runs of a program that uses the class *)

(** What can happen next: a call of one of the four logging methods, a
    call of [saveLogs], or the event loop resuming the [k]-th suspended
    [initializeLogger] with the outcome of its [mkdir]. *)
Inductive Event :=
| Emit (level : LogLevel) (message : string) (created now : Date)
| Close (created : Date) (o : EndOutcome)
| Settle (k : nat) (o : MkdirOutcome).

Definition settle (k : nat) (o : MkdirOutcome) (s : State) : State :=
  match suspended s !! k with
  | None => s
  | Some this =>
      initializeLogger_resume this o (set_suspended (delete k (suspended s)) s)
  end.

Definition step (s : State) (e : Event) : State :=
  match e with
  | Emit level message created now => fst (writeLog level message created now s)
  | Close created o => fst (saveLogs created o s)
  | Settle k o => settle k o s
  end.

Definition run (events : list Event) (s : State) : State :=
  fold_left step events s.

(** The README's clock readings. *)
Definition t_14_30_45 : Date := mkDate 2025 9 19 14 30 45 0.
Definition t_14_30_46 : Date := mkDate 2025 9 19 14 30 46 0.
Definition t_14_30_47 : Date := mkDate 2025 9 19 14 30 47 0.

(** ** The formats as the documentation words them *)

(** The character of a decimal digit. *)
Definition digit (n : Z) : ascii := ascii_of_nat (48 + Z.to_nat n).

(** [n] written with exactly [width] decimal digits, zeros in front. *)
Fixpoint zero_padded (width : nat) (n : Z) : string :=
  match width with
  | O => ""
  | S k => String (digit ((n / 10 ^ Z.of_nat k) mod 10)) (zero_padded k n)
  end.

(** [yyyy-MM-dd_HH-mm-ss] for a clock reading, the month counted from
    one. *)
Definition filename_stamp (d : Date) : string :=
  zero_padded 4 (getFullYear d) +:+ "-" +:+ zero_padded 2 (getMonth d + 1) +:+
  "-" +:+ zero_padded 2 (getDate d) +:+ "_" +:+ zero_padded 2 (getHours d) +:+
  "-" +:+ zero_padded 2 (getMinutes d) +:+ "-" +:+ zero_padded 2 (getSeconds d).

(** [<log-directory>/<timestamp>.log] with the directory [logs]. *)
Definition documented_path (d : Date) : string :=
  "logs" +:+ "/" +:+ filename_stamp d +:+ ".log".

(** A clock reading whose year has four digits. *)
Definition four_digit_year (d : Date) : Prop :=
  1000 <= getFullYear d <= 9999.

(** The integers from zero up to a bound, for checks by enumeration. *)
Definition below (bound : Z) : list Z :=
  map Z.of_nat (seq 0 (Z.to_nat bound)).

(** A stream on which [end] was never called. *)
Definition never_ended (w : WriteStream) : Prop :=
  ws_end_calls w = 0%nat /\ ws_finished w = false.

(** The object [new LogKeeper()] puts on the heap. *)
Definition fresh_object (now : Date) : LogKeeperObj :=
  mkLogKeeper None "logs"
    (join "logs" (formatFilenameTimestamp now +:+ ".log")).

(** Lines 85 to 93 run for one object on a list of calls, each a level, a
    message and the clock reading of line 90. *)
Definition writeLog_body_all (inst : nat)
    (calls : list (LogLevel * string * Date)) (s : State) : State :=
  fold_left (fun acc '(level, message, now) =>
               fst (writeLog_body inst level message now acc)) calls s.

(** The entries of a list of calls, in the order of the calls. *)
Definition entries_of (calls : list (LogLevel * string * Date)) : list string :=
  map (fun '(level, message, now) =>
         logEntry (formatLogTimestamp now) level message) calls.

(** ** Orders on clock readings and on names *)

(** The first comparison that is not [Eq] decides. *)
Definition then_compare (c rest : comparison) : comparison :=
  match c with
  | Eq => rest
  | _ => c
  end.

(** Two clock readings compared by year, then month, day, hour, minute and
    second. *)
Definition compare_to_second (d1 d2 : Date) : comparison :=
  then_compare (getFullYear d1 ?= getFullYear d2)
  (then_compare (getMonth d1 ?= getMonth d2)
  (then_compare (getDate d1 ?= getDate d2)
  (then_compare (getHours d1 ?= getHours d2)
  (then_compare (getMinutes d1 ?= getMinutes d2)
                (getSeconds d1 ?= getSeconds d2))))).

Definition same_comparison (c1 c2 : comparison) : bool :=
  match c1, c2 with
  | Eq, Eq | Lt, Lt | Gt, Gt => true
  | _, _ => false
  end.

(** Two clock readings that agree up to the second. *)
Definition same_second (d1 d2 : Date) : Prop :=
  getFullYear d1 = getFullYear d2 /\ getMonth d1 = getMonth d2 /\
  getDate d1 = getDate d2 /\ getHours d1 = getHours d2 /\
  getMinutes d1 = getMinutes d2 /\ getSeconds d1 = getSeconds d2.

(** ** Texts made of entries *)

(** The texts of a list one after the other. *)
Definition concat_strings (texts : list string) : string :=
  fold_right String.append "" texts.

(** A message that closes its own line and goes on with what looks like
    the entry of another call. *)
Definition forged_message (message : string) (timestamp' : string)
    (level' : LogLevel) (message' : string) : string :=
  message +:+ newline +:+ "[" +:+ timestamp' +:+ "] " +:+ LogLevel_text level'
  +:+ ": " +:+ message'.

(** A call whose clock reading is valid and whose message has no
    newline. *)
Definition one_line_call (call : LogLevel * string * Date) : Prop :=
  valid_fields (snd call) /\ count_lines (snd (fst call)) = 0%nat.

(** ** Counting over a run *)

(** The calls of the static methods among the events of a run, and the
    logging calls among them. *)
Definition is_call (e : Event) : bool :=
  match e with
  | Emit _ _ _ _ | Close _ _ => true
  | Settle _ _ => false
  end.

Definition is_emit (e : Event) : bool :=
  match e with
  | Emit _ _ _ _ => true
  | _ => false
  end.

Definition calls_in (events : list Event) : nat :=
  length (List.filter is_call events).

Definition emits_in (events : list Event) : nat :=
  length (List.filter is_emit events).

(** The lines on the console that report an uninitialised logger. *)
Definition reports (s : State) : nat :=
  length (List.filter (String.eqb "LogKeeper not initialized") (console s)).

(** ** States a program can be in *)

(** What holds of the states a run reaches: the suspended initialisations
    are those of distinct objects of the heap that hold no stream yet; every
    object has the directory [logs]; an object that holds a stream holds one
    of the table, opened on the object's own file, and shares it with no
    other object; the static field is undefined on an empty heap and is the
    last object otherwise; the only directory there can be is [logs]. *)
Record reachable_shape (s : State) : Prop := mkShape {
  shape_bound : forall i, i ∈ suspended s -> (i < length (heap s))%nat;
  shape_nodup : NoDup (suspended s);
  shape_pending : forall i, i ∈ suspended s -> writeStream_of s i = None;
  shape_logDir : forall i obj, heap s !! i = Some obj -> logDir obj = "logs";
  shape_stream : forall i obj st,
    heap s !! i = Some obj -> writeStream obj = Some st ->
    exists w, streams s !! st = Some w /\ ws_path w = logFile obj;
  shape_unshared : forall i j st,
    writeStream_of s i = Some st -> writeStream_of s j = Some st -> i = j;
  shape_instance :
    match instance s with
    | None => heap s = []
    | Some i => S i = length (heap s)
    end;
  shape_dirs : dirs s = [] \/ dirs s = ["logs"]
}.

(** ** The clock: time values and local time *)

(** The year within its 400-year era and the day within its year (the
    year starting on 1 March) of a day of the era. *)
Definition year_of_era (doe : Z) : Z :=
  (doe - doe / 1460 + doe / 36524 - doe / 146096) / 365.

Definition day_of_year (doe : Z) : Z :=
  let yoe := year_of_era doe in
  doe - (365 * yoe + yoe / 4 - yoe / 100).

(** Year, month (1 to 12) and day of the month of a day counted from
    1970-01-01, in the proleptic Gregorian calendar: the inverse of
    [days_from_civil]. *)
Definition civil_from_days (z : Z) : Z * Z * Z :=
  let z' := z + 719468 in
  let era := z' / 146097 in
  let doe := z' - era * 146097 in
  let yoe := year_of_era doe in
  let doy := day_of_year doe in
  let mp := (5 * doy + 2) / 153 in
  let d := doy - (153 * mp + 2) / 5 + 1 in
  let m := if mp <? 10 then mp + 3 else mp - 9 in
  let y := yoe + era * 400 in
  (if m <=? 2 then y + 1 else y, m, d).

(** What [new Date()] holds: the time value, in milliseconds since
    1970-01-01T00:00:00Z, and the offset of local time from UTC in effect at
    that time, in milliseconds (ECMAScript's LocalTZA; it is given by the
    time zone of the machine, not by the program). *)
Record Instant := mkInstant {
  time_value : Z;
  LocalTZA : Z
}.

(** ECMAScript's LocalTime(t). *)
Definition LocalTime (i : Instant) : Z := time_value i + LocalTZA i.

(** The values the local-time getters return for an instant. *)
Definition local_reading (i : Instant) : Date :=
  let t := LocalTime i in
  let day := t / 86400000 in
  let in_day := t mod 86400000 in
  let ymd := civil_from_days day in
  mkDate (fst (fst ymd)) (snd (fst ymd) - 1) (snd ymd)
         (in_day / 3600000) ((in_day / 60000) mod 60) ((in_day / 1000) mod 60)
         (in_day mod 1000).

(** Two instants of 2 November 2025 in New York, an hour apart: 05:30:00Z,
    under daylight time (UTC-4), and 06:30:00Z, under standard time
    (UTC-5). *)
Definition new_york_0130_edt : Instant := mkInstant 1762061400000 (-14400000).
Definition new_york_0130_est : Instant := mkInstant 1762065000000 (-18000000).

(** Two instants of one time zone offset, a second apart. *)
Definition utc_14_30_45 : Instant := mkInstant 1760884245000 0.
Definition utc_14_30_46 : Instant := mkInstant 1760884246000 0.

(** ** The model on the examples of the documentation *)

Example formatFilenameTimestamp_readme :
  formatFilenameTimestamp (mkDate 2025 9 19 14 30 45 0) = "2025-10-19_14-30-45".
Proof. reflexivity. Qed.

Example formatLogTimestamp_readme :
  formatLogTimestamp (mkDate 2025 9 19 9 5 7 123) = "09:05:07".
Proof. reflexivity. Qed.

Example String_of_samples :
  String_of 0 = "0" /\ String_of 7 = "7" /\ String_of (-12) = "-12".
Proof. repeat split; reflexivity. Qed.

Example padStart_samples :
  padStart 2 "0" "7" = "07" /\ padStart 2 "0" "123" = "123" /\
  padStart 5 "ab" "x" = "ababx" /\ padStart 3 "" "x" = "x".
Proof. repeat split; reflexivity. Qed.

Example ancestors_samples :
  ancestors "logs" = ["logs"] /\ ancestors "a/b/c" = ["a"; "a/b"; "a/b/c"] /\
  join "logs" "x.log" = "logs/x.log".
Proof. repeat split; reflexivity. Qed.

Example mkdir_samples :
  mkdir "logs" true MkdirDone [] = (["logs"], None) /\
  mkdir "logs" true MkdirDone ["logs"] = (["logs"], None) /\
  mkdir "logs" false MkdirDone ["logs"] = (["logs"], Some "EEXIST") /\
  mkdir "a/b" false MkdirDone [] = ([], Some "ENOENT") /\
  mkdir "a/b" true MkdirDone [] = (["a"; "a/b"], None) /\
  mkdir "logs" true (MkdirFails "EACCES") [] = ([], Some "EACCES").
Proof. repeat split; reflexivity. Qed.

Example run_emit_then_settle :
  run [Emit INFO "a" t_14_30_45 t_14_30_45; Settle 0 MkdirDone] initial =
  mkState [mkLogKeeper (Some 0%nat) "logs" "logs/2025-10-19_14-30-45.log"]
          (Some 0%nat) []
          [mkWriteStream "logs/2025-10-19_14-30-45.log" 0 false]
          [] ["logs"] ["LogKeeper not initialized"].
Proof. reflexivity. Qed.

Example writeLog_body_on_open_stream :
  let s := run [Emit INFO "a" t_14_30_45 t_14_30_45; Settle 0 MkdirDone] initial in
  written (fst (writeLog_body 0 ERROR "b" t_14_30_46 s)) =
  [(0%nat, "[14:30:46] ERROR: b" +:+ newline)].
Proof. reflexivity. Qed.

(** ** Strings *)

Section Strings.

Lemma length_append (a b : string) :
  String.length (a +:+ b) = (String.length a + String.length b)%nat.
Proof. induction a as [|c a IH]; simpl; [reflexivity | now rewrite IH]. Qed.

(** Two concatenations with heads of one length agree piecewise. *)
Lemma append_split (a b c d : string) :
  a +:+ c = b +:+ d -> String.length a = String.length b ->
  a = b /\ c = d.
Proof.
  revert b; induction a as [|x a IH]; intros [|y b]; simpl; try discriminate.
  - intros H _. now split.
  - intros H L. injection H as Hx Hrest. injection L as L.
    destruct (IH b Hrest L) as [-> ->]. now subst.
Qed.

Lemma append_assoc (a b c : string) : (a +:+ b) +:+ c = a +:+ (b +:+ c).
Proof.
  induction a as [|x a IH]; [reflexivity |].
  change (String x ((a +:+ b) +:+ c) = String x (a +:+ (b +:+ c))).
  now rewrite IH.
Qed.

Lemma count_lines_append (a b : string) :
  count_lines (a +:+ b) = (count_lines a + count_lines b)%nat.
Proof.
  induction a as [|c a IH]; simpl; [reflexivity |].
  destruct (Ascii.eqb c "010"); simpl; now rewrite IH.
Qed.

Lemma String_of_inj (a b : Z) : String_of a = String_of b -> a = b.
Proof.
  unfold String_of. intros H.
  assert (E : Some (Z.to_int a) = Some (Z.to_int b)).
  { rewrite <- (NilEmpty.isi (Z.to_int a)), <- (NilEmpty.isi (Z.to_int b)).
    now rewrite H. }
  injection E as E.
  rewrite <- (DecimalZ.of_to a), <- (DecimalZ.of_to b). now rewrite E.
Qed.

End Strings.

(** ** Two-digit and four-digit fields *)

Section Fields.

Lemma below_spec (bound n : Z) : 0 <= n < bound -> In n (below bound).
Proof.
  intros H. unfold below. apply in_map_iff. exists (Z.to_nat n). split.
  - lia.
  - apply in_seq. lia.
Qed.

Lemma pad2_table :
  forallb (fun n => String.eqb (padStart 2 "0" (String_of n)) (zero_padded 2 n))
          (below 100) = true.
Proof. vm_compute. reflexivity. Qed.

(** On 0 to 99, [String(n).padStart(2, '0')] is [n] in two digits. *)
Lemma pad2_zero_padded (n : Z) :
  0 <= n <= 99 -> padStart 2 "0" (String_of n) = zero_padded 2 n.
Proof.
  intros H. pose proof pad2_table as T.
  rewrite forallb_forall in T. apply String.eqb_eq, T, below_spec. lia.
Qed.

Lemma year_table :
  forallb (fun k => let y := 1000 + k in String.eqb (String_of y) (zero_padded 4 y))
          (below 9000) = true.
Proof. vm_compute. reflexivity. Qed.

(** From 1000 to 9999, [String(year)] is the year in four digits. *)
Lemma year_zero_padded (y : Z) :
  1000 <= y <= 9999 -> String_of y = zero_padded 4 y.
Proof.
  intros H. pose proof year_table as T.
  rewrite forallb_forall in T.
  assert (R : 0 <= y - 1000 < 9000) by lia.
  specialize (T (y - 1000) (below_spec 9000 (y - 1000) R)).
  cbv zeta in T. replace (1000 + (y - 1000)) with y in T by lia.
  now apply String.eqb_eq.
Qed.

Lemma digit_table :
  forallb (fun a => forallb (fun b => implb (Ascii.eqb (digit a) (digit b)) (a =? b))
                            (below 10)) (below 10) = true.
Proof. vm_compute. reflexivity. Qed.

Lemma digit_inj (a b : Z) :
  0 <= a <= 9 -> 0 <= b <= 9 -> digit a = digit b -> a = b.
Proof.
  intros Ha Hb E. pose proof digit_table as T.
  rewrite forallb_forall in T.
  assert (Ra : 0 <= a < 10) by lia. assert (Rb : 0 <= b < 10) by lia.
  specialize (T a (below_spec 10 a Ra)).
  rewrite forallb_forall in T.
  specialize (T b (below_spec 10 b Rb)).
  rewrite E, Ascii.eqb_refl in T. simpl in T. lia.
Qed.

Lemma zero_padded_length (width : nat) (n : Z) :
  String.length (zero_padded width n) = width.
Proof. induction width; simpl; congruence. Qed.

Lemma zero_padded2_inj (a b : Z) :
  0 <= a <= 99 -> 0 <= b <= 99 -> zero_padded 2 a = zero_padded 2 b -> a = b.
Proof.
  intros Ha Hb E. simpl in E. injection E as E1 E0.
  change (10 ^ Z.of_nat 1) with 10 in E1.
  change (10 ^ Z.of_nat 0) with 1 in E0.
  rewrite ?Z.div_1_r in E0.
  assert (Qa : 0 <= a / 10 <= 9)
    by (split; [apply Z.div_pos; lia | apply Z.lt_succ_r, Z.div_lt_upper_bound; lia]).
  assert (Qb : 0 <= b / 10 <= 9)
    by (split; [apply Z.div_pos; lia | apply Z.lt_succ_r, Z.div_lt_upper_bound; lia]).
  rewrite !Z.mod_small in E1 by lia.
  pose proof (Z.mod_pos_bound a 10 ltac:(lia)) as Ma.
  pose proof (Z.mod_pos_bound b 10 ltac:(lia)) as Mb.
  apply digit_inj in E1; [| lia ..].
  apply digit_inj in E0; [| lia ..].
  rewrite (Z.div_mod a 10), (Z.div_mod b 10) by lia. lia.
Qed.

End Fields.

(** ** The file name of a session *)

Section Filename.

(** For a reading with a four-digit year the formatter yields exactly
    [yyyy-MM-dd_HH-mm-ss]. *)
Lemma formatFilenameTimestamp_documented (d : Date) :
  valid_fields d -> four_digit_year d ->
  formatFilenameTimestamp d = filename_stamp d.
Proof.
  intros (Hm & Hd & Hh & Hmi & Hs & _) Hy.
  unfold formatFilenameTimestamp, filename_stamp.
  rewrite !pad2_zero_padded by lia.
  now rewrite (year_zero_padded _ Hy).
Qed.

Lemma filename_stamp_length (d : Date) :
  String.length (filename_stamp d) = 19%nat.
Proof. reflexivity. Qed.

Local Ltac peel H L :=
  apply append_split in H;
  [destruct H as [L H] | rewrite ?zero_padded_length; reflexivity].

(** The formatter forgets nothing but the milliseconds: equal names come
    from equal years, months, days, hours, minutes and seconds. *)
Lemma formatFilenameTimestamp_fields (d1 d2 : Date) :
  valid_fields d1 -> valid_fields d2 ->
  formatFilenameTimestamp d1 = formatFilenameTimestamp d2 ->
  getFullYear d1 = getFullYear d2 /\ getMonth d1 = getMonth d2 /\
  getDate d1 = getDate d2 /\ getHours d1 = getHours d2 /\
  getMinutes d1 = getMinutes d2 /\ getSeconds d1 = getSeconds d2.
Proof.
  intros (Hm1 & Hd1 & Hh1 & Hmi1 & Hs1 & _) (Hm2 & Hd2 & Hh2 & Hmi2 & Hs2 & _).
  unfold formatFilenameTimestamp. rewrite !pad2_zero_padded by lia. intros E.
  assert (L : String.length (String_of (getFullYear d1)) =
              String.length (String_of (getFullYear d2))).
  { apply (f_equal String.length) in E.
    rewrite !length_append, !zero_padded_length in E. simpl in E. lia. }
  apply append_split in E; [| exact L]. destruct E as [Ey E].
  peel E S1. peel E Emonth. peel E S2. peel E Eday. peel E S3.
  peel E Ehours. peel E S4. peel E Eminutes. peel E S5.
  apply String_of_inj in Ey.
  apply zero_padded2_inj in Emonth; [| lia ..].
  apply zero_padded2_inj in Eday; [| lia ..].
  apply zero_padded2_inj in Ehours; [| lia ..].
  apply zero_padded2_inj in Eminutes; [| lia ..].
  apply zero_padded2_inj in E; [| lia ..].
  repeat split; lia.
Qed.

End Filename.

(** ** Creating an object *)

Section GetInstance.

Variables (now : Date) (s : State).

Lemma getInstance_unfold :
  getInstance now s =
  (mkState (heap s ++ [fresh_object now]) (Some (length (heap s)))
           (suspended s ++ [length (heap s)]) (streams s) (written s)
           (dirs s) (console s),
   length (heap s)).
Proof. reflexivity. Qed.

Lemma getInstance_writeStream :
  writeStream_of (fst (getInstance now s)) (snd (getInstance now s)) = None.
Proof.
  rewrite getInstance_unfold. unfold writeStream_of. cbn [fst snd heap].
  now rewrite list_lookup_middle.
Qed.

Lemma writeLog_unfold (level : LogLevel) (message : string) (t : Date) :
  writeLog level message now t s =
  (console_error "LogKeeper not initialized" (fst (getInstance now s)), Normal).
Proof.
  unfold writeLog. pose proof getInstance_writeStream as W.
  destruct (getInstance now s) as [s1 inst]. cbn [fst snd] in *.
  unfold writeLog_body. now rewrite W.
Qed.

Lemma saveLogs_unfold (o : EndOutcome) :
  saveLogs now o s = (fst (getInstance now s), Resolved).
Proof.
  unfold saveLogs. pose proof getInstance_writeStream as W.
  destruct (getInstance now s) as [s1 inst]. cbn [fst snd] in *.
  unfold saveLogs_body. now rewrite W.
Qed.

End GetInstance.

(** C9. Every call of [getInstance()] builds a new object and stores it in
    the static field, whatever the field held: the reference returned is new
    to the heap.  The new object's [initializeLogger] is suspended, not run,
    so its [writeStream] is [null] when [writeLog] and [saveLogs] test it:
    [writeLog] takes the branch that reports an uninitialised logger and
    [saveLogs] the branch that ends no stream. *)
Theorem getInstance_always_fresh (now : Date) (s : State) :
  let s' := fst (getInstance now s) in
  let this := snd (getInstance now s) in
  this = length (heap s) /\ heap s !! this = None /\
  heap s' = heap s ++ [fresh_object now] /\
  instance s' = Some this /\
  suspended s' = suspended s ++ [this] /\
  writeStream_of s' this = None /\
  (forall level message t,
     writeLog level message now t s =
     (console_error "LogKeeper not initialized" s', Normal)) /\
  (forall o, saveLogs now o s = (s', Resolved)).
Proof.
  cbv zeta. repeat split.
  - apply lookup_ge_None_2. rewrite getInstance_unfold. cbn [snd]. lia.
  - apply getInstance_writeStream.
  - intros. apply writeLog_unfold.
  - intros. apply saveLogs_unfold.
Qed.

(** ** Logging calls *)

(** C4. A logging call never throws, in any state of the program, so also
    when the directory could not be created or after [saveLogs] has
    completed: it returns normally, sends one line to [console.error],
    hands no data to any stream and leaves streams, directories and the
    content of every file as they were. *)
Theorem writeLog_returns_normally
    (level : LogLevel) (message : string) (created now : Date) (s : State) :
  let s' := fst (writeLog level message created now s) in
  snd (writeLog level message created now s) = Normal /\
  console s' = console s ++ ["LogKeeper not initialized"] /\
  written s' = written s /\ streams s' = streams s /\ dirs s' = dirs s /\
  (forall path, file_content s' path = file_content s path).
Proof.
  cbv zeta. rewrite writeLog_unfold, getInstance_unfold. repeat split.
Qed.

Section Entries.

(** The entry is the message between a prefix and a newline, char for
    char. *)
Lemma logEntry_verbatim (timestamp : string) (level : LogLevel) (message : string) :
  logEntry timestamp level message =
  ("[" +:+ timestamp +:+ "] " +:+ LogLevel_text level +:+ ": ") +:+ message
  +:+ newline.
Proof.
  unfold logEntry. now rewrite !append_assoc.
Qed.

Lemma logEntry_lines (timestamp : string) (level : LogLevel) (message : string) :
  count_lines (logEntry timestamp level message) =
  (count_lines timestamp + count_lines message + 1)%nat.
Proof.
  unfold logEntry. rewrite !count_lines_append.
  destruct level; cbn; lia.
Qed.

(** [HH:MM:SS], zero-padded, for a valid clock reading. *)
Lemma formatLogTimestamp_documented (d : Date) :
  valid_fields d ->
  formatLogTimestamp d =
  zero_padded 2 (getHours d) +:+ ":" +:+ zero_padded 2 (getMinutes d) +:+ ":"
  +:+ zero_padded 2 (getSeconds d).
Proof.
  intros (_ & _ & Hh & Hmi & Hs & _). unfold formatLogTimestamp.
  now rewrite !pad2_zero_padded by lia.
Qed.

(** What lines 90 to 93 do for an object whose stream is open: one chunk,
    the entry, is handed to that stream. *)
Lemma writeLog_body_open (inst st : nat) (w : WriteStream)
    (level : LogLevel) (message : string) (now : Date) (s : State) :
  writeStream_of s inst = Some st -> streams s !! st = Some w ->
  ws_end_calls w = 0%nat ->
  writeLog_body inst level message now s =
  (set_written
     (written s ++ [(st, logEntry (formatLogTimestamp now) level message)]) s,
   Normal).
Proof.
  intros Hws Hst Hopen. unfold writeLog_body. rewrite Hws. unfold write.
  now rewrite Hst, Hopen.
Qed.

(** Run on one object whose stream is open, lines 85 to 93 hand the stream
    one entry per call, in the order of the calls.  [writeLog] never runs
    them on such an object (see [getInstance_writeStream]). *)
Lemma writeLog_body_all_open (inst st : nat) (w : WriteStream)
    (calls : list (LogLevel * string * Date)) (s : State) :
  writeStream_of s inst = Some st -> streams s !! st = Some w ->
  ws_end_calls w = 0%nat ->
  written (writeLog_body_all inst calls s) =
  written s ++ map (fun entry => (st, entry)) (entries_of calls).
Proof.
  revert s. induction calls as [|[[level message] now] calls IH]; intros s Hws Hst Hopen.
  - cbn. now rewrite app_nil_r.
  - change (writeLog_body_all inst ((level, message, now) :: calls) s)
      with (writeLog_body_all inst calls
              (fst (writeLog_body inst level message now s))).
    rewrite (writeLog_body_open inst st w level message now s Hws Hst Hopen).
    cbn [fst]. rewrite IH; try assumption.
    cbn [written set_written entries_of map]. now rewrite <- app_assoc.
Qed.

End Entries.

(** ** Closing *)

Section Closing.

Lemma assign_writeStream_lookup (inst : nat) (v : option nat) (s : State) :
  is_Some (heap s !! inst) ->
  writeStream_of (assign_writeStream inst v s) inst = v.
Proof.
  intros [obj Hobj]. unfold writeStream_of, assign_writeStream.
  cbn [heap set_heap]. now rewrite list_lookup_alter_eq, Hobj.
Qed.

Lemma writeStream_of_Some (s : State) (inst st : nat) :
  writeStream_of s inst = Some st -> is_Some (heap s !! inst).
Proof.
  unfold writeStream_of. destruct (heap s !! inst); [eauto | discriminate].
Qed.

(** Closing an object whose stream ended well clears its field, so
    closing the same object again finds [null] and does nothing. *)
Lemma saveLogs_body_again (inst : nat) (o : EndOutcome) (s : State) :
  let s1 := fst (saveLogs_body inst EndDone s) in
  saveLogs_body inst o s1 = (s1, Resolved).
Proof.
  cbv zeta.
  assert (N : writeStream_of (fst (saveLogs_body inst EndDone s)) inst = None).
  { unfold saveLogs_body.
    destruct (writeStream_of s inst) as [st|] eqn:Hws; cbn [fst]; [| exact Hws].
    apply assign_writeStream_lookup. cbn [heap end_stream set_streams].
    eapply writeStream_of_Some, Hws. }
  revert N. generalize (fst (saveLogs_body inst EndDone s)). intros s1 N.
  unfold saveLogs_body. now rewrite N.
Qed.

End Closing.

(** C5. A logging call, the event loop opening its stream, a first
    [saveLogs()] and then a second one: the second call resolves, but it is
    not without effect.  It builds a third object and suspends a third
    initialisation, so the state is not the one the first call left; and
    once the event loop has run the two waiting initialisations there are
    three streams, on three files, on none of which [end] was called. *)
Theorem second_saveLogs_builds_a_session :
  let s := run [Emit INFO "a" t_14_30_45 t_14_30_45; Settle 0 MkdirDone;
                Close t_14_30_46 EndDone] initial in
  let second := saveLogs t_14_30_47 EndDone s in
  let later := run [Settle 0 MkdirDone; Settle 0 MkdirDone] (fst second) in
  snd second = Resolved /\
  fst second <> s /\
  length (heap s) = 2%nat /\ length (heap (fst second)) = 3%nat /\
  suspended s = [1%nat] /\ suspended (fst second) = [1; 2]%nat /\
  instance s = Some 1%nat /\ instance (fst second) = Some 2%nat /\
  streams later =
    [mkWriteStream "logs/2025-10-19_14-30-45.log" 0 false;
     mkWriteStream "logs/2025-10-19_14-30-46.log" 0 false;
     mkWriteStream "logs/2025-10-19_14-30-47.log" 0 false].
Proof.
  cbv zeta. split; [reflexivity |]. split; [| repeat split].
  intros E. apply (f_equal instance) in E. discriminate E.
Qed.

(** C8. A logging call, the event loop opening its stream, and then
    [saveLogs()] at a time when [end] on that stream would report the error
    EIO: the promise resolves and [end] is not called, because the object
    tested is the new one.  The code after the test, run for the object
    that holds the stream, would have rejected with that error. *)
Theorem saveLogs_resolves_when_end_would_fail :
  let s := run [Emit INFO "a" t_14_30_45 t_14_30_45; Settle 0 MkdirDone] initial in
  let closed := saveLogs t_14_30_46 (EndFails "EIO") s in
  snd closed = Resolved /\
  streams (fst closed) = [mkWriteStream "logs/2025-10-19_14-30-45.log" 0 false] /\
  writeStream_of (fst closed) 0 = Some 0%nat /\
  snd (saveLogs_body 0 (EndFails "EIO") s) = Rejected "EIO".
Proof. repeat split. Qed.

(** ** What no run of the program does *)

Section Runs.

Lemma initializeLogger_resume_written (this : nat) (o : MkdirOutcome) (s : State) :
  written (initializeLogger_resume this o s) = written s.
Proof.
  unfold initializeLogger_resume. destruct (heap s !! this) as [obj|]; [| reflexivity].
  destruct (mkdir (logDir obj) true o (dirs s)) as [ds [e|]]; reflexivity.
Qed.

Lemma initializeLogger_resume_streams (this : nat) (o : MkdirOutcome) (s : State) :
  Forall never_ended (streams s) ->
  Forall never_ended (streams (initializeLogger_resume this o s)).
Proof.
  intros H. unfold initializeLogger_resume.
  destruct (heap s !! this) as [obj|]; [| exact H].
  destruct (mkdir (logDir obj) true o (dirs s)) as [ds [e|]]; [exact H |].
  cbn. apply Forall_app. split; [exact H |].
  constructor; [now split | constructor].
Qed.

Lemma step_written (s : State) (e : Event) : written (step s e) = written s.
Proof.
  destruct e as [level message created now | created o | k o]; cbn [step].
  - now rewrite writeLog_unfold, getInstance_unfold.
  - now rewrite saveLogs_unfold, getInstance_unfold.
  - unfold settle. destruct (suspended s !! k); [| reflexivity].
    now rewrite initializeLogger_resume_written.
Qed.

Lemma step_streams (s : State) (e : Event) :
  Forall never_ended (streams s) -> Forall never_ended (streams (step s e)).
Proof.
  intros H. destruct e as [level message created now | created o | k o]; cbn [step].
  - now rewrite writeLog_unfold, getInstance_unfold.
  - now rewrite saveLogs_unfold, getInstance_unfold.
  - unfold settle. destruct (suspended s !! k); [| exact H].
    now apply initializeLogger_resume_streams.
Qed.

(** Whatever the program calls and whatever the file system answers, no
    chunk is ever handed to a stream. *)
Lemma run_written (events : list Event) (s : State) :
  written (run events s) = written s.
Proof.
  revert s. induction events as [|e events IH]; intros s; [reflexivity |].
  cbn [run fold_left]. fold (run events (step s e)).
  now rewrite IH, step_written.
Qed.

(** ... and [end] is never called on a stream. *)
Lemma run_streams (events : list Event) (s : State) :
  Forall never_ended (streams s) -> Forall never_ended (streams (run events s)).
Proof.
  revert s. induction events as [|e events IH]; intros s H; [exact H |].
  cbn [run fold_left]. fold (run events (step s e)).
  now apply IH, step_streams.
Qed.

Lemma file_content_nothing_written (s : State) (path : string) :
  written s = [] -> file_content s path = "".
Proof. unfold file_content. now intros ->. Qed.

Lemma run_files_empty (events : list Event) (path : string) :
  file_content (run events initial) path = "".
Proof. apply file_content_nothing_written. now rewrite run_written. Qed.

End Runs.

(** C1. Two logging calls and a [saveLogs] from the start of the program
    build three objects: the static field holds a different reference
    after each call, and three initialisations, each for a file of its own,
    are waiting. *)
Theorem three_calls_three_sessions :
  let s1 := fst (info "a" t_14_30_45 t_14_30_45 initial) in
  let s2 := fst (error "b" t_14_30_46 t_14_30_46 s1) in
  let s3 := fst (saveLogs t_14_30_47 EndDone s2) in
  instance s1 = Some 0%nat /\ instance s2 = Some 1%nat /\
  instance s3 = Some 2%nat /\
  map logFile (heap s3) =
    ["logs/2025-10-19_14-30-45.log"; "logs/2025-10-19_14-30-46.log";
     "logs/2025-10-19_14-30-47.log"] /\
  suspended s3 = [0; 1; 2]%nat.
Proof. repeat split. Qed.

(** C2. One logging call, then the event loop opening the stream, then a
    second logging call: both entries are dropped.  Nothing is handed to
    any stream, the two files are empty, and the console holds the two
    reports. *)
Theorem emitted_entries_are_dropped :
  let s := run [Emit INFO "a" t_14_30_45 t_14_30_45; Settle 0 MkdirDone;
                Emit ERROR "b" t_14_30_46 t_14_30_46; Settle 0 MkdirDone] initial in
  written s = [] /\
  map ws_path (streams s) =
    ["logs/2025-10-19_14-30-45.log"; "logs/2025-10-19_14-30-46.log"] /\
  file_content s "logs/2025-10-19_14-30-45.log" = "" /\
  file_content s "logs/2025-10-19_14-30-46.log" = "" /\
  count_lines (file_content s "logs/2025-10-19_14-30-45.log") = 0%nat /\
  console s = ["LogKeeper not initialized"; "LogKeeper not initialized"].
Proof. repeat split. Qed.

(** C3. After a logging call whose stream the event loop has opened,
    [saveLogs()] resolves without calling [end]: the stream of the
    earlier object is as it was, unfinished, and that object still holds
    it. *)
Theorem saveLogs_leaves_stream_open :
  let s := run [Emit INFO "a" t_14_30_45 t_14_30_45; Settle 0 MkdirDone] initial in
  let closed := saveLogs t_14_30_46 EndDone s in
  snd closed = Resolved /\
  streams (fst closed) = [mkWriteStream "logs/2025-10-19_14-30-45.log" 0 false] /\
  writeStream_of (fst closed) 0 = Some 0%nat /\
  writeStream_of (fst closed) 1 = None /\
  instance (fst closed) = Some 1%nat.
Proof. repeat split. Qed.

(** C10. The entry carries the message as it is, so a message with a
    newline makes an entry of two lines; but the logging call that is given
    such a message hands nothing to a stream, and the file stays empty. *)
Theorem newline_entry_is_not_written :
  let s := run [Emit INFO "a" t_14_30_45 t_14_30_45; Settle 0 MkdirDone] initial in
  let message := "x" +:+ newline +:+ "y" in
  let s' := fst (info message t_14_30_45 t_14_30_46 s) in
  logEntry (formatLogTimestamp t_14_30_46) INFO message =
    "[14:30:46] INFO: x" +:+ newline +:+ "y" +:+ newline /\
  count_lines (logEntry (formatLogTimestamp t_14_30_46) INFO message) = 2%nat /\
  written s' = [] /\
  file_content s' "logs/2025-10-19_14-30-45.log" = "" /\
  console s' = ["LogKeeper not initialized"; "LogKeeper not initialized"].
Proof. repeat split. Qed.

(** ** Sessions created at different times *)

Section Calendar.

Lemma year_of_era_bound (doe : Z) :
  0 <= doe <= 146096 -> 0 <= year_of_era doe <= 399.
Proof. intros H. unfold year_of_era. Z.div_mod_to_equations. lia. Qed.

Lemma day_of_year_bound (doe : Z) :
  0 <= doe <= 146096 -> 0 <= day_of_year doe <= 365.
Proof.
  intros H. unfold day_of_year, year_of_era. cbv zeta.
  Z.div_mod_to_equations. lia.
Qed.

(** The month is from 1 to 12 and the day from 1 to 31. *)
Lemma civil_from_days_bounds (z : Z) :
  1 <= snd (fst (civil_from_days z)) <= 12 /\ 1 <= snd (civil_from_days z) <= 31.
Proof.
  unfold civil_from_days. cbv zeta. cbn [fst snd].
  set (doe := z + 719468 - (z + 719468) / 146097 * 146097).
  assert (Hdoe : 0 <= doe <= 146096) by (unfold doe; Z.div_mod_to_equations; lia).
  pose proof (day_of_year_bound doe Hdoe) as Hdoy.
  generalize dependent (day_of_year doe). intros doy Hdoy.
  destruct (Z.ltb_spec ((5 * doy + 2) / 153) 10); split;
    Z.div_mod_to_equations; lia.
Qed.

(** Counting the days of the date of a day gives the day back. *)
Lemma days_from_civil_from_days (z : Z) :
  days_from_civil (fst (fst (civil_from_days z))) (snd (fst (civil_from_days z)))
                  (snd (civil_from_days z)) = z.
Proof.
  unfold civil_from_days. cbv zeta. cbn [fst snd].
  set (era := (z + 719468) / 146097).
  set (doe := z + 719468 - era * 146097).
  assert (Hdoe : 0 <= doe <= 146096)
    by (unfold doe, era; Z.div_mod_to_equations; lia).
  pose proof (day_of_year_bound doe Hdoe) as Hdoy.
  pose proof (year_of_era_bound doe Hdoe) as Hyoe.
  assert (Edoy : day_of_year doe =
                 doe - (365 * year_of_era doe + year_of_era doe / 4
                        - year_of_era doe / 100)) by reflexivity.
  generalize dependent (day_of_year doe). intros doy Hdoy Edoy.
  generalize dependent (year_of_era doe). intros yoe Hyoe Edoy.
  unfold days_from_civil.
  destruct (Z.ltb_spec ((5 * doy + 2) / 153) 10) as [Hmp | Hmp].
  - destruct (Z.leb_spec ((5 * doy + 2) / 153 + 3) 2) as [C | C];
      [Z.div_mod_to_equations; lia |].
    cbv zeta. unfold doe in *. Z.div_mod_to_equations. lia.
  - destruct (Z.leb_spec ((5 * doy + 2) / 153 - 9) 2) as [C | C];
      [| Z.div_mod_to_equations; lia].
    cbv zeta. unfold doe in *. Z.div_mod_to_equations. lia.
Qed.

(** The getters of an instant are in their ranges. *)
Lemma local_reading_valid (i : Instant) : valid_fields (local_reading i).
Proof.
  unfold valid_fields, local_reading. cbv zeta.
  cbn [getMonth getDate getHours getMinutes getSeconds getMilliseconds].
  pose proof (civil_from_days_bounds (LocalTime i / 86400000)) as [Hm Hd].
  repeat split; try lia; Z.div_mod_to_equations; lia.
Qed.

(** Two instants whose getters agree up to the second are less than a second
    apart in local time. *)
Lemma same_second_local_time (i1 i2 : Instant) :
  same_second (local_reading i1) (local_reading i2) ->
  Z.abs (LocalTime i1 - LocalTime i2) < 1000.
Proof.
  unfold same_second, local_reading. cbv zeta.
  cbn [getFullYear getMonth getDate getHours getMinutes getSeconds].
  intros (Ey & Emo & Ed & Eh & Emi & Es).
  assert (Eday : LocalTime i1 / 86400000 = LocalTime i2 / 86400000).
  { rewrite <- (days_from_civil_from_days (LocalTime i1 / 86400000)).
    rewrite <- (days_from_civil_from_days (LocalTime i2 / 86400000)).
    rewrite Ey, Ed. f_equal. lia. }
  clear Ey Emo Ed. Z.div_mod_to_equations. lia.
Qed.

End Calendar.

Example local_reading_samples :
  local_reading (mkInstant 0 0) = mkDate 1970 0 1 0 0 0 0 /\
  local_reading (mkInstant 951782400000 0) = mkDate 2000 1 29 0 0 0 0 /\
  local_reading (mkInstant (-1) 0) = mkDate 1969 11 31 23 59 59 999 /\
  local_reading utc_14_30_45 = t_14_30_45 /\
  local_reading new_york_0130_edt = mkDate 2025 10 2 1 30 0 0 /\
  local_reading new_york_0130_est = mkDate 2025 10 2 1 30 0 0.
Proof. repeat split. Qed.

(** C7, as the claim states it, fails: the two instants of the night in which
    daylight time ends in New York are an hour apart, and both read
    01:30:00 on 2 November 2025, so both get the name
    [2025-11-02_01-30-00]. *)
Lemma repeated_hour_same_filename :
  ~ (forall i1 i2 : Instant,
       1000 <= Z.abs (time_value i1 - time_value i2) ->
       formatFilenameTimestamp (local_reading i1) <>
       formatFilenameTimestamp (local_reading i2)).
Proof.
  intros H. apply (H new_york_0130_edt new_york_0130_est).
  - vm_compute. discriminate.
  - reflexivity.
Qed.

(** Under one offset from UTC, instants a second or more apart get
    different file names. *)
Lemma filenames_differ_under_one_offset (i1 i2 : Instant) :
  LocalTZA i1 = LocalTZA i2 ->
  1000 <= Z.abs (time_value i1 - time_value i2) ->
  formatFilenameTimestamp (local_reading i1) <>
  formatFilenameTimestamp (local_reading i2).
Proof.
  intros E Far Same.
  apply formatFilenameTimestamp_fields in Same; try apply local_reading_valid.
  pose proof (same_second_local_time i1 i2 Same) as Near.
  unfold LocalTime in Near. rewrite E in Near. lia.
Qed.

(** C7, amended. Two instants whose local times, the time value plus the
    offset from UTC in effect, are a second or more apart get different
    file names. *)
Theorem filenames_differ_when_local_times_differ (i1 i2 : Instant) :
  1000 <= Z.abs (LocalTime i1 - LocalTime i2) ->
  formatFilenameTimestamp (local_reading i1) <>
  formatFilenameTimestamp (local_reading i2).
Proof.
  intros Far Same.
  apply formatFilenameTimestamp_fields in Same; try apply local_reading_valid.
  pose proof (same_second_local_time i1 i2 Same) as Near. lia.
Qed.

Lemma filenames_differ_when_local_times_differ_witness :
  1000 <= Z.abs (LocalTime utc_14_30_45 - LocalTime utc_14_30_46) /\
  formatFilenameTimestamp (local_reading utc_14_30_45) <>
  formatFilenameTimestamp (local_reading utc_14_30_46).
Proof.
  assert (Far : 1000 <= Z.abs (LocalTime utc_14_30_45 - LocalTime utc_14_30_46))
    by (vm_compute; discriminate).
  split; [exact Far |].
  exact (filenames_differ_when_local_times_differ _ _ Far).
Defined.

(** ** The file of a session *)

Section SessionFile.

Variables (now : Date) (s : State).

Lemma join_logs (name : string) : join "logs" (name +:+ ".log") = "logs/" +:+ name +:+ ".log".
Proof.
  unfold join. destruct (name +:+ ".log") eqn:E; [| reflexivity].
  destruct name; discriminate.
Qed.

Lemma settle_new_object (o : MkdirOutcome) :
  settle (length (suspended s)) o (fst (getInstance now s)) =
  initializeLogger_resume (length (heap s)) o
    (mkState (heap s ++ [fresh_object now]) (Some (length (heap s)))
             (suspended s) (streams s) (written s) (dirs s) (console s)).
Proof.
  rewrite getInstance_unfold. unfold settle. cbn [fst suspended].
  rewrite list_lookup_middle by reflexivity.
  unfold set_suspended. cbn. rewrite delete_middle, app_nil_r. reflexivity.
Qed.

Lemma has_dir_add_missing (ds : list string) (p : string) :
  has_dir (add_missing ds [p]) p = true.
Proof.
  unfold add_missing. cbn [fold_left].
  destruct (has_dir ds p) eqn:E; [exact E |].
  unfold has_dir. rewrite existsb_app. cbn. rewrite String.eqb_refl.
  now rewrite orb_true_r.
Qed.

Lemma add_missing_present (ds : list string) (p : string) :
  has_dir ds p = true -> add_missing ds [p] = ds.
Proof. intros H. unfold add_missing. cbn [fold_left]. now rewrite H. Qed.

End SessionFile.

(** C6. The object created at the clock reading [now] (valid, with a
    four-digit year) has the path [logs/yyyy-MM-dd_HH-mm-ss.log], every
    field zero-padded, as its file.  When its initialisation resumes after
    a successful [mkdir], the directory [logs] exists, whether it did before
    or not (the directories are unchanged if it did), and the object
    holds a new stream that appends to that path. *)
Theorem session_file_path (now : Date) (s : State) :
  valid_fields now -> four_digit_year now ->
  let s1 := fst (getInstance now s) in
  let this := snd (getInstance now s) in
  let s2 := settle (length (suspended s)) MkdirDone s1 in
  heap s1 !! this = Some (mkLogKeeper None "logs" (documented_path now)) /\
  String.length (filename_stamp now) = 19%nat /\
  has_dir (dirs s2) "logs" = true /\
  (has_dir (dirs s) "logs" = true -> dirs s2 = dirs s) /\
  writeStream_of s2 this = Some (length (streams s)) /\
  streams s2 !! length (streams s) = Some (mkWriteStream (documented_path now) 0 false).
Proof.
  intros V Y. cbv zeta.
  assert (P : fresh_object now = mkLogKeeper None "logs" (documented_path now)).
  { unfold fresh_object, documented_path.
    now rewrite join_logs, (formatFilenameTimestamp_documented now V Y). }
  rewrite settle_new_object. rewrite getInstance_unfold. cbn [fst snd heap].
  rewrite P. unfold initializeLogger_resume. cbn [heap dirs].
  rewrite list_lookup_middle by reflexivity. cbn [logDir logFile].
  change (mkdir "logs" true MkdirDone (dirs s))
    with (add_missing (dirs s) ["logs"], @None string).
  cbn [createWriteStream set_dirs streams heap instance suspended written dirs console
       set_streams assign_writeStream set_heap].
  repeat split.
  - apply has_dir_add_missing.
  - apply add_missing_present.
  - apply assign_writeStream_lookup. unfold set_streams, set_dirs. cbn [heap].
    rewrite list_lookup_middle by reflexivity. eauto.
  - now rewrite list_lookup_middle.
Qed.

Lemma session_file_path_witness :
  valid_fields t_14_30_45 /\ four_digit_year t_14_30_45 /\
  heap (fst (getInstance t_14_30_45 initial)) !! 0%nat =
    Some (mkLogKeeper None "logs" "logs/2025-10-19_14-30-45.log") /\
  dirs (settle 0 MkdirDone (fst (getInstance t_14_30_45 initial))) = ["logs"].
Proof.
  assert (V : valid_fields t_14_30_45) by (unfold valid_fields; cbn; lia).
  assert (Y : four_digit_year t_14_30_45) by (unfold four_digit_year; cbn; lia).
  split; [exact V |]. split; [exact Y |]. split.
  - exact (proj1 (session_file_path t_14_30_45 initial V Y)).
  - reflexivity.
Defined.

(** * Further properties of the code *)

(** ** The two formatters *)

Section Formatters.

Lemma append_cancel_r (a b c : string) : a +:+ c = b +:+ c -> a = b.
Proof.
  intros E. apply append_split in E; [tauto |].
  apply (f_equal String.length) in E. rewrite !length_append in E. lia.
Qed.

Lemma pad2_length (n : Z) :
  0 <= n <= 99 -> String.length (padStart 2 "0" (String_of n)) = 2%nat.
Proof. intros H. now rewrite pad2_zero_padded, zero_padded_length. Qed.

Lemma formatFilenameTimestamp_length (d : Date) :
  valid_fields d ->
  String.length (formatFilenameTimestamp d) =
  (String.length (String_of (getFullYear d)) + 15)%nat.
Proof.
  intros (Hm & Hd & Hh & Hmi & Hs & _). unfold formatFilenameTimestamp.
  rewrite !length_append, !pad2_length by lia. cbn. lia.
Qed.

Lemma short_year_table :
  forallb (fun y => (String.length (String_of y) <=? 3)%nat) (below 1000) = true.
Proof. vm_compute. reflexivity. Qed.

Lemma short_year_length (y : Z) :
  0 <= y <= 999 -> (String.length (String_of y) <= 3)%nat.
Proof.
  intros H. pose proof short_year_table as T. rewrite forallb_forall in T.
  assert (R : 0 <= y < 1000) by lia.
  apply Nat.leb_le, T, below_spec, R.
Qed.

Lemma formatLogTimestamp_length (d : Date) :
  valid_fields d -> String.length (formatLogTimestamp d) = 8%nat.
Proof. intros V. now rewrite (formatLogTimestamp_documented d V). Qed.

End Formatters.

(** X1. For a valid clock reading the stamp of an entry is [HH:MM:SS]:
    hours, minutes and seconds in two digits each, eight characters, no
    newline in it. *)
Theorem formatLogTimestamp_shape (d : Date) :
  valid_fields d ->
  formatLogTimestamp d =
    zero_padded 2 (getHours d) +:+ ":" +:+ zero_padded 2 (getMinutes d) +:+ ":"
    +:+ zero_padded 2 (getSeconds d) /\
  String.length (formatLogTimestamp d) = 8%nat.
Proof.
  intros V. rewrite (formatLogTimestamp_documented d V). split; reflexivity.
Qed.

Lemma formatLogTimestamp_shape_witness :
  valid_fields t_14_30_45 /\ String.length (formatLogTimestamp t_14_30_45) = 8%nat.
Proof.
  assert (V : valid_fields t_14_30_45) by (unfold valid_fields; cbn; lia).
  split; [exact V | exact (proj2 (formatLogTimestamp_shape t_14_30_45 V))].
Defined.

(** X2. The stamp of an entry tells the time of day and nothing else: two
    valid clock readings get the same stamp exactly when their hours,
    minutes and seconds agree, whatever their dates. *)
Theorem formatLogTimestamp_same_iff (d1 d2 : Date) :
  valid_fields d1 -> valid_fields d2 ->
  (formatLogTimestamp d1 = formatLogTimestamp d2 <->
   getHours d1 = getHours d2 /\ getMinutes d1 = getMinutes d2 /\
   getSeconds d1 = getSeconds d2).
Proof.
  intros (_ & _ & Hh1 & Hmi1 & Hs1 & _) (_ & _ & Hh2 & Hmi2 & Hs2 & _). split.
  - unfold formatLogTimestamp. rewrite !pad2_zero_padded by lia. intros E.
    apply append_split in E; [| now rewrite !zero_padded_length].
    destruct E as [Eh E].
    apply append_split in E; [| reflexivity]. destruct E as [_ E].
    apply append_split in E; [| now rewrite !zero_padded_length].
    destruct E as [Emi E].
    apply append_split in E; [| reflexivity]. destruct E as [_ Es].
    apply zero_padded2_inj in Eh; [| lia ..].
    apply zero_padded2_inj in Emi; [| lia ..].
    apply zero_padded2_inj in Es; [| lia ..].
    now repeat split.
  - intros (Eh & Emi & Es). unfold formatLogTimestamp. now rewrite Eh, Emi, Es.
Qed.

Lemma formatLogTimestamp_same_iff_witness :
  valid_fields t_14_30_45 /\ valid_fields (mkDate 1999 0 1 14 30 45 7) /\
  formatLogTimestamp t_14_30_45 = formatLogTimestamp (mkDate 1999 0 1 14 30 45 7).
Proof.
  assert (V1 : valid_fields t_14_30_45) by (unfold valid_fields; cbn; lia).
  assert (V2 : valid_fields (mkDate 1999 0 1 14 30 45 7))
    by (unfold valid_fields; cbn; lia).
  split; [exact V1 |]. split; [exact V2 |].
  apply (proj2 (formatLogTimestamp_same_iff _ _ V1 V2)). now repeat split.
Defined.

(** X3. Two valid clock readings get the same file name exactly when they
    agree up to the second: the milliseconds never count, so two objects
    created within one second are given the same file. *)
Theorem formatFilenameTimestamp_same_iff (d1 d2 : Date) :
  valid_fields d1 -> valid_fields d2 ->
  (formatFilenameTimestamp d1 = formatFilenameTimestamp d2 <-> same_second d1 d2).
Proof.
  intros V1 V2. split.
  - apply formatFilenameTimestamp_fields; assumption.
  - intros (Ey & Emo & Ed & Eh & Emi & Es). unfold formatFilenameTimestamp.
    now rewrite Ey, Emo, Ed, Eh, Emi, Es.
Qed.

Lemma formatFilenameTimestamp_same_iff_witness :
  valid_fields t_14_30_45 /\ valid_fields (mkDate 2025 9 19 14 30 45 999) /\
  formatFilenameTimestamp t_14_30_45 =
  formatFilenameTimestamp (mkDate 2025 9 19 14 30 45 999).
Proof.
  assert (V1 : valid_fields t_14_30_45) by (unfold valid_fields; cbn; lia).
  assert (V2 : valid_fields (mkDate 2025 9 19 14 30 45 999))
    by (unfold valid_fields; cbn; lia).
  split; [exact V1 |]. split; [exact V2 |].
  apply (proj2 (formatFilenameTimestamp_same_iff _ _ V1 V2)). now repeat split.
Defined.

(** X4. The year is not padded: for a valid clock reading the name is
    fifteen characters longer than the year's numeral, so with a year
    from 0 to 999 it is shorter than the nineteen characters of
    [yyyy-MM-dd_HH-mm-ss] and is not of that form. *)
Theorem formatFilenameTimestamp_short_year (d : Date) :
  valid_fields d -> 0 <= getFullYear d <= 999 ->
  String.length (formatFilenameTimestamp d) =
    (String.length (String_of (getFullYear d)) + 15)%nat /\
  (String.length (formatFilenameTimestamp d) < 19)%nat /\
  formatFilenameTimestamp d <> filename_stamp d.
Proof.
  intros V Y. pose proof (formatFilenameTimestamp_length d V) as L.
  pose proof (short_year_length _ Y) as S3.
  split; [exact L |]. split; [lia |].
  intros E. apply (f_equal String.length) in E.
  rewrite filename_stamp_length in E. lia.
Qed.

Lemma formatFilenameTimestamp_short_year_witness :
  valid_fields (mkDate 999 0 1 0 0 0 0) /\ 0 <= 999 <= 999 /\
  formatFilenameTimestamp (mkDate 999 0 1 0 0 0 0) <>
  filename_stamp (mkDate 999 0 1 0 0 0 0).
Proof.
  assert (V : valid_fields (mkDate 999 0 1 0 0 0 0))
    by (unfold valid_fields; cbn; lia).
  assert (Y : 0 <= getFullYear (mkDate 999 0 1 0 0 0 0) <= 999) by (cbn; lia).
  split; [exact V |]. split; [lia |].
  exact (proj2 (proj2 (formatFilenameTimestamp_short_year _ V Y))).
Defined.

(** ** File names in the order of time *)

Section NameOrder.

Lemma compare_append (a b s t : string) :
  String.length a = String.length b ->
  String.compare (a +:+ s) (b +:+ t) =
  then_compare (String.compare a b) (String.compare s t).
Proof.
  revert b. induction a as [|x a IH]; intros [|y b] L; try discriminate L.
  - reflexivity.
  - injection L as L.
    change (match Ascii.compare x y with
            | Eq => String.compare (a +:+ s) (b +:+ t)
            | Lt => Lt
            | Gt => Gt
            end =
            then_compare (match Ascii.compare x y with
                          | Eq => String.compare a b
                          | Lt => Lt
                          | Gt => Gt
                          end) (String.compare s t)).
    destruct (Ascii.compare x y); [now apply IH | reflexivity | reflexivity].
Qed.

Lemma same_comparison_eq (c1 c2 : comparison) :
  same_comparison c1 c2 = true -> c1 = c2.
Proof. destruct c1, c2; (reflexivity || discriminate). Qed.

Lemma compare_pad2_table :
  forallb (fun a =>
    forallb (fun b =>
      same_comparison (String.compare (zero_padded 2 a) (zero_padded 2 b)) (a ?= b))
      (below 100)) (below 100) = true.
Proof. vm_compute. reflexivity. Qed.

(** Two-digit fields compare as their numbers. *)
Lemma compare_pad2 (a b : Z) :
  0 <= a <= 99 -> 0 <= b <= 99 ->
  String.compare (zero_padded 2 a) (zero_padded 2 b) = (a ?= b).
Proof.
  intros Ha Hb. pose proof compare_pad2_table as T.
  assert (Ra : 0 <= a < 100) by lia. assert (Rb : 0 <= b < 100) by lia.
  rewrite forallb_forall in T. specialize (T a (below_spec 100 a Ra)).
  rewrite forallb_forall in T. specialize (T b (below_spec 100 b Rb)).
  now apply same_comparison_eq.
Qed.

Lemma zero_padded4_halves (y : Z) :
  0 <= y ->
  zero_padded 4 y = zero_padded 2 (y / 100) +:+ zero_padded 2 (y mod 100).
Proof.
  intros H. cbn [zero_padded].
  change (10 ^ Z.of_nat 3) with 1000. change (10 ^ Z.of_nat 2) with 100.
  change (10 ^ Z.of_nat 1) with 10. change (10 ^ Z.of_nat 0) with 1.
  change (String ?c ?r +:+ ?t) with (String c (r +:+ t)).
  assert (E3 : (y / 1000) mod 10 = (y / 100 / 10) mod 10)
    by (rewrite Z.div_div by lia; reflexivity).
  assert (E2 : (y / 100) mod 10 = (y / 100 / 1) mod 10)
    by (now rewrite Z.div_1_r).
  assert (E1 : (y / 10) mod 10 = (y mod 100 / 10) mod 10)
    by (Z.div_mod_to_equations; lia).
  assert (E0 : (y / 1) mod 10 = (y mod 100 / 1) mod 10)
    by (rewrite !Z.div_1_r; Z.div_mod_to_equations; lia).
  rewrite E3, E2, E1, E0. reflexivity.
Qed.

(** Four-digit years compare as their numbers. *)
Lemma compare_year (a b : Z) :
  1000 <= a <= 9999 -> 1000 <= b <= 9999 ->
  String.compare (zero_padded 4 a) (zero_padded 4 b) = (a ?= b).
Proof.
  intros Ha Hb. rewrite !zero_padded4_halves by lia.
  rewrite compare_append by now rewrite !zero_padded_length.
  assert (Qa : 0 <= a / 100 <= 99 /\ 0 <= a mod 100 <= 99)
    by (Z.div_mod_to_equations; lia).
  assert (Qb : 0 <= b / 100 <= 99 /\ 0 <= b mod 100 <= 99)
    by (Z.div_mod_to_equations; lia).
  rewrite !compare_pad2 by lia.
  destruct (Z.compare_spec (a / 100) (b / 100)) as [E | L | G]; cbn [then_compare].
  - destruct (Z.compare_spec (a mod 100) (b mod 100)) as [E' | L' | G'];
      symmetry; [apply Z.compare_eq_iff | apply Z.compare_lt_iff | apply Z.compare_gt_iff];
      Z.div_mod_to_equations; lia.
  - symmetry. apply Z.compare_lt_iff. Z.div_mod_to_equations; lia.
  - symmetry. apply Z.compare_gt_iff. Z.div_mod_to_equations; lia.
Qed.

Lemma compare_refl (a : string) : String.compare a a = Eq.
Proof.
  induction a as [|x a IH]; [reflexivity |].
  change (match Ascii.compare x x with
          | Eq => String.compare a a
          | Lt => Lt
          | Gt => Gt
          end = Eq).
  unfold Ascii.compare. now rewrite N.compare_refl.
Qed.

Lemma compare_separator (sep s t : string) :
  String.compare (sep +:+ s) (sep +:+ t) = String.compare s t.
Proof. now rewrite compare_append, compare_refl. Qed.

(** A two-digit field and what follows it. *)
Lemma compare_field (a b : Z) (s t : string) :
  0 <= a <= 99 -> 0 <= b <= 99 ->
  String.compare (zero_padded 2 a +:+ s) (zero_padded 2 b +:+ t) =
  then_compare (a ?= b) (String.compare s t).
Proof.
  intros Ha Hb. rewrite compare_append by now rewrite !zero_padded_length.
  now rewrite compare_pad2.
Qed.

End NameOrder.

(** X5. File names sort as time runs: for two valid clock readings with
    four-digit years, comparing the names as strings gives the same
    answer as comparing the readings by year, month, day, hour, minute and
    second. *)
Theorem formatFilenameTimestamp_order (d1 d2 : Date) :
  valid_fields d1 -> valid_fields d2 ->
  four_digit_year d1 -> four_digit_year d2 ->
  String.compare (formatFilenameTimestamp d1) (formatFilenameTimestamp d2) =
  compare_to_second d1 d2.
Proof.
  intros V1 V2 Y1 Y2.
  rewrite !formatFilenameTimestamp_documented by assumption.
  destruct V1 as (Hm1 & Hd1 & Hh1 & Hmi1 & Hs1 & _).
  destruct V2 as (Hm2 & Hd2 & Hh2 & Hmi2 & Hs2 & _).
  unfold filename_stamp, compare_to_second.
  rewrite compare_append by now rewrite !zero_padded_length.
  rewrite compare_year by assumption. f_equal.
  rewrite compare_separator, compare_field by lia.
  rewrite !(Z.add_comm (getMonth _) 1), Z.add_compare_mono_l. f_equal.
  rewrite compare_separator, compare_field by lia. f_equal.
  rewrite compare_separator, compare_field by lia. f_equal.
  rewrite compare_separator, compare_field by lia. f_equal.
  rewrite compare_separator. apply compare_pad2; lia.
Qed.

Lemma formatFilenameTimestamp_order_witness :
  valid_fields t_14_30_45 /\ valid_fields t_14_30_46 /\
  four_digit_year t_14_30_45 /\ four_digit_year t_14_30_46 /\
  String.compare (formatFilenameTimestamp t_14_30_45)
                 (formatFilenameTimestamp t_14_30_46) = Lt.
Proof.
  assert (V1 : valid_fields t_14_30_45) by (unfold valid_fields; cbn; lia).
  assert (V2 : valid_fields t_14_30_46) by (unfold valid_fields; cbn; lia).
  assert (Y1 : four_digit_year t_14_30_45) by (unfold four_digit_year; cbn; lia).
  assert (Y2 : four_digit_year t_14_30_46) by (unfold four_digit_year; cbn; lia).
  repeat (split; [assumption |]).
  rewrite (formatFilenameTimestamp_order _ _ V1 V2 Y1 Y2). reflexivity.
Defined.

(** ** Entries and what a reader of the file can tell *)

Section EntryText.

Lemma file_content_written (s : State) (more : list (nat * string)) (path : string) :
  file_content (set_written (written s ++ more) s) path =
  file_content s path +:+ file_content (set_written more s) path.
Proof.
  unfold file_content. cbn [written streams set_written].
  induction (written s) as [|[st chunk] rest IH]; [reflexivity |].
  cbn [app fold_right]. rewrite IH.
  destruct (streams s !! st) as [w|]; [| reflexivity].
  destruct (String.eqb (ws_path w) path); [| reflexivity].
  now rewrite append_assoc.
Qed.

Lemma append_empty_r (a : string) : a +:+ "" = a.
Proof.
  induction a as [|x a IH]; [reflexivity |].
  change (String x (a +:+ "") = String x a). now rewrite IH.
Qed.

(** The content of the file of a stream after one more chunk on it. *)
Lemma file_content_chunk (s : State) (st : nat) (w : WriteStream) (chunk : string) :
  streams s !! st = Some w ->
  file_content (set_written (written s ++ [(st, chunk)]) s) (ws_path w) =
  file_content s (ws_path w) +:+ chunk.
Proof.
  intros Hst. rewrite file_content_written. f_equal.
  unfold file_content. cbn [written streams set_written fold_right].
  now rewrite Hst, String.eqb_refl, append_empty_r.
Qed.

Lemma LogLevel_text_tail (l1 l2 : LogLevel) (r1 r2 : string) :
  LogLevel_text l1 +:+ ": " +:+ r1 = LogLevel_text l2 +:+ ": " +:+ r2 ->
  l1 = l2 /\ r1 = r2.
Proof.
  destruct l1, l2; intros E; cbv [LogLevel_text String.append] in E;
    try discriminate E; injection E as E; now split.
Qed.

Lemma zero_padded_lines (n : Z) : count_lines (zero_padded 2 n) = 0%nat.
Proof.
  cbn [zero_padded count_lines].
  change (10 ^ Z.of_nat 1) with 10. change (10 ^ Z.of_nat 0) with 1.
  assert (D : forall k, 0 <= k <= 9 -> Ascii.eqb (digit k) "010" = false).
  { intros k Hk.
    assert (C : k = 0 \/ k = 1 \/ k = 2 \/ k = 3 \/ k = 4 \/ k = 5 \/ k = 6 \/
                k = 7 \/ k = 8 \/ k = 9) by lia.
    repeat (destruct C as [-> | C]; [reflexivity |]). now subst. }
  rewrite !D by (Z.div_mod_to_equations; lia). reflexivity.
Qed.

Lemma formatLogTimestamp_lines (d : Date) :
  valid_fields d -> count_lines (formatLogTimestamp d) = 0%nat.
Proof.
  intros V. rewrite (formatLogTimestamp_documented d V).
  rewrite !count_lines_append, !zero_padded_lines. reflexivity.
Qed.

(** The whole state after lines 85 to 93 have run on a list of calls for an
    object whose stream is open: only the written chunks have grown. *)
Lemma writeLog_body_all_state (inst st : nat) (w : WriteStream)
    (calls : list (LogLevel * string * Date)) (s : State) :
  writeStream_of s inst = Some st -> streams s !! st = Some w ->
  ws_end_calls w = 0%nat ->
  writeLog_body_all inst calls s =
  set_written (written s ++ map (fun entry => (st, entry)) (entries_of calls)) s.
Proof.
  revert s. induction calls as [|[[level message] now] calls IH]; intros s Hws Hst Hopen.
  - cbn. rewrite app_nil_r. now destruct s.
  - change (writeLog_body_all inst ((level, message, now) :: calls) s)
      with (writeLog_body_all inst calls
              (fst (writeLog_body inst level message now s))).
    rewrite (writeLog_body_open inst st w level message now s Hws Hst Hopen).
    cbn [fst]. rewrite IH; try assumption.
    unfold set_written. cbn [written heap instance suspended streams dirs console
                             entries_of map].
    now rewrite <- app_assoc.
Qed.

Lemma file_content_entries (s : State) (st : nat) (w : WriteStream)
    (texts : list string) :
  streams s !! st = Some w ->
  file_content (set_written (written s ++ map (fun entry => (st, entry)) texts) s)
               (ws_path w) =
  file_content s (ws_path w) +:+ concat_strings texts.
Proof.
  intros Hst. rewrite file_content_written. f_equal.
  unfold file_content. cbn [written streams set_written].
  induction texts as [|text texts IH]; [reflexivity |].
  cbn [map fold_right concat_strings].
  rewrite Hst, String.eqb_refl. f_equal. exact IH.
Qed.

End EntryText.

(** X6. An entry tells its parts apart: two entries stamped at valid clock
    readings are the same text only if the time of day, the level and
    the message are the same. *)
Theorem logEntry_injective (d1 d2 : Date) (l1 l2 : LogLevel) (m1 m2 : string) :
  valid_fields d1 -> valid_fields d2 ->
  logEntry (formatLogTimestamp d1) l1 m1 = logEntry (formatLogTimestamp d2) l2 m2 ->
  formatLogTimestamp d1 = formatLogTimestamp d2 /\ l1 = l2 /\ m1 = m2.
Proof.
  intros V1 V2 E. unfold logEntry in E.
  apply append_split in E; [| reflexivity]. destruct E as [_ E].
  apply append_split in E.
  2: { now rewrite (formatLogTimestamp_length d1 V1),
                   (formatLogTimestamp_length d2 V2). }
  destruct E as [Et E].
  apply append_split in E; [| reflexivity]. destruct E as [_ E].
  apply LogLevel_text_tail in E. destruct E as [El E].
  apply append_cancel_r in E. now repeat split.
Qed.

Lemma logEntry_injective_witness :
  valid_fields t_14_30_45 /\
  (logEntry (formatLogTimestamp t_14_30_45) INFO "a" =
   logEntry (formatLogTimestamp t_14_30_45) INFO "a" ->
   INFO = INFO /\ "a" = "a").
Proof.
  assert (V : valid_fields t_14_30_45) by (unfold valid_fields; cbn; lia).
  split; [exact V |]. intros E.
  exact (proj2 (logEntry_injective t_14_30_45 t_14_30_45 INFO INFO "a" "a" V V E)).
Defined.

(** X7. Nothing in a message is escaped, so a message can forge entries: the
    entry of one call whose message ends its line and goes on like an
    entry is, byte for byte, the entries of two calls; and run for an
    object whose stream is open, lines 85 to 93 leave the same file after
    the one call as after the two. *)
Theorem logEntry_forged (inst st : nat) (w : WriteStream) (s : State)
    (level level' : LogLevel) (message message' : string) (now now' : Date) :
  writeStream_of s inst = Some st -> streams s !! st = Some w ->
  ws_end_calls w = 0%nat ->
  let forged := forged_message message (formatLogTimestamp now') level' message' in
  logEntry (formatLogTimestamp now) level forged =
    logEntry (formatLogTimestamp now) level message +:+
    logEntry (formatLogTimestamp now') level' message' /\
  file_content (fst (writeLog_body inst level forged now s)) (ws_path w) =
  file_content
    (writeLog_body_all inst [(level, message, now); (level', message', now')] s)
    (ws_path w).
Proof.
  intros Hws Hst Hopen. cbv zeta.
  assert (E : logEntry (formatLogTimestamp now) level
                (forged_message message (formatLogTimestamp now') level' message') =
              logEntry (formatLogTimestamp now) level message +:+
              logEntry (formatLogTimestamp now') level' message').
  { unfold logEntry, forged_message. now rewrite !append_assoc. }
  split; [exact E |].
  rewrite (writeLog_body_open inst st w _ _ _ s Hws Hst Hopen). cbn [fst].
  rewrite (file_content_chunk s st w _ Hst), E.
  rewrite (writeLog_body_all_state inst st w _ s Hws Hst Hopen).
  rewrite (file_content_entries s st w _ Hst). f_equal.
  cbn [entries_of map concat_strings fold_right]. now rewrite append_empty_r.
Qed.

Lemma logEntry_forged_witness :
  let s := run [Emit INFO "a" t_14_30_45 t_14_30_45; Settle 0 MkdirDone] initial in
  file_content
    (fst (writeLog_body 0 INFO
            (forged_message "x" (formatLogTimestamp t_14_30_47) CRITICAL "y")
            t_14_30_46 s))
    "logs/2025-10-19_14-30-45.log" =
  "[14:30:46] INFO: x" +:+ newline +:+ "[14:30:47] CRITICAL: y" +:+ newline.
Proof.
  cbv zeta.
  pose proof (logEntry_forged 0 0 (mkWriteStream "logs/2025-10-19_14-30-45.log" 0 false)
                (run [Emit INFO "a" t_14_30_45 t_14_30_45; Settle 0 MkdirDone] initial)
                INFO CRITICAL "x" "y" t_14_30_46 t_14_30_47 eq_refl eq_refl eq_refl) as H.
  cbv zeta in H. destruct H as [_ H].
  cbn [ws_path] in H. rewrite H. reflexivity.
Defined.

(** X8. Run for one object whose stream is open, lines 85 to 93 append the
    entries of the calls to the object's file in the order of the calls and
    change no other part of the state; when every clock reading is valid and
    no message has a newline, the appended text has as many lines as there
    were calls. *)
Theorem writeLog_body_all_file (inst st : nat) (w : WriteStream)
    (calls : list (LogLevel * string * Date)) (s : State) :
  writeStream_of s inst = Some st -> streams s !! st = Some w ->
  ws_end_calls w = 0%nat ->
  writeLog_body_all inst calls s =
    set_written (written s ++ map (fun entry => (st, entry)) (entries_of calls)) s /\
  file_content (writeLog_body_all inst calls s) (ws_path w) =
    file_content s (ws_path w) +:+ concat_strings (entries_of calls) /\
  (Forall one_line_call calls ->
   count_lines (concat_strings (entries_of calls)) = length calls).
Proof.
  intros Hws Hst Hopen.
  pose proof (writeLog_body_all_state inst st w calls s Hws Hst Hopen) as A.
  split; [exact A |]. split.
  - rewrite A. now apply file_content_entries.
  - clear. induction calls as [|[[level message] now] calls IH]; intros F.
    + reflexivity.
    + apply Forall_cons in F. destruct F as [[V M] F]. cbn [snd fst] in V, M.
      cbn [entries_of map concat_strings fold_right length].
      rewrite count_lines_append, logEntry_lines, (formatLogTimestamp_lines now V), M.
      fold (concat_strings (map (fun '(level0, message0, now0) =>
              logEntry (formatLogTimestamp now0) level0 message0) calls)).
      fold (entries_of calls). rewrite (IH F). lia.
Qed.

Lemma writeLog_body_all_file_witness :
  let s := run [Emit INFO "a" t_14_30_45 t_14_30_45; Settle 0 MkdirDone] initial in
  file_content
    (writeLog_body_all 0 [(INFO, "a", t_14_30_46); (ERROR, "b", t_14_30_47)] s)
    "logs/2025-10-19_14-30-45.log" =
  "[14:30:46] INFO: a" +:+ newline +:+ "[14:30:47] ERROR: b" +:+ newline.
Proof.
  cbv zeta.
  pose proof (writeLog_body_all_file 0 0
                (mkWriteStream "logs/2025-10-19_14-30-45.log" 0 false)
                [(INFO, "a", t_14_30_46); (ERROR, "b", t_14_30_47)]
                (run [Emit INFO "a" t_14_30_45 t_14_30_45; Settle 0 MkdirDone] initial)
                eq_refl eq_refl eq_refl) as (_ & H & _).
  cbn [ws_path] in H. rewrite H. reflexivity.
Defined.

(** ** Closing one object *)

Section CloseObject.

Lemma file_content_end_stream (st : nat) (o : EndOutcome) (s : State) (path : string) :
  file_content (end_stream st o s) path = file_content s path.
Proof.
  unfold file_content. cbn [written streams end_stream set_streams].
  induction (written s) as [|[k chunk] rest IH]; [reflexivity |].
  cbn [fold_right]. rewrite IH.
  destruct (decide (st = k)) as [-> | Hne].
  - rewrite list_lookup_alter_eq. now destruct (streams s !! k).
  - now rewrite list_lookup_alter_ne.
Qed.

End CloseObject.

(** X9. Run for an object whose stream is open and ends without error, lines
    189 to 200 call [end] once, leave the stream finished, clear the
    object's field, resolve, and change the content of no file.  Lines 85
    to 93 run for that object afterwards report an uninitialised logger and
    write nothing: a closed object takes no more entries and its file is
    left as it was closed. *)
Theorem saveLogs_body_then_writeLog_body (inst st : nat) (w : WriteStream)
    (s : State) (level : LogLevel) (message : string) (now : Date) :
  writeStream_of s inst = Some st -> streams s !! st = Some w ->
  let closed := fst (saveLogs_body inst EndDone s) in
  snd (saveLogs_body inst EndDone s) = Resolved /\
  streams closed !! st =
    Some (mkWriteStream (ws_path w) (S (ws_end_calls w)) true) /\
  writeStream_of closed inst = None /\
  (forall path, file_content closed path = file_content s path) /\
  writeLog_body inst level message now closed =
    (console_error "LogKeeper not initialized" closed, Normal) /\
  (forall path,
     file_content (fst (writeLog_body inst level message now closed)) path =
     file_content s path).
Proof.
  intros Hws Hst. cbv zeta.
  assert (C : saveLogs_body inst EndDone s =
              (assign_writeStream inst None (end_stream st EndDone s), Resolved)).
  { unfold saveLogs_body. now rewrite Hws. }
  rewrite C. cbn [fst snd].
  assert (N : writeStream_of (assign_writeStream inst None (end_stream st EndDone s))
                inst = None).
  { apply assign_writeStream_lookup. cbn [heap end_stream set_streams].
    eapply writeStream_of_Some, Hws. }
  assert (F : forall path,
             file_content (assign_writeStream inst None (end_stream st EndDone s)) path =
             file_content s path).
  { intros path. rewrite <- (file_content_end_stream st EndDone s path). reflexivity. }
  assert (W : writeLog_body inst level message now
                (assign_writeStream inst None (end_stream st EndDone s)) =
              (console_error "LogKeeper not initialized"
                 (assign_writeStream inst None (end_stream st EndDone s)), Normal)).
  { unfold writeLog_body. now rewrite N. }
  repeat split; try assumption.
  - cbn [streams assign_writeStream set_heap end_stream set_streams].
    now rewrite list_lookup_alter_eq, Hst.
  - intros path. rewrite W. cbn [fst]. rewrite <- (F path). reflexivity.
Qed.

Lemma saveLogs_body_then_writeLog_body_witness :
  let s := run [Emit INFO "a" t_14_30_45 t_14_30_45; Settle 0 MkdirDone] initial in
  let closed := fst (saveLogs_body 0 EndDone s) in
  writeStream_of closed 0 = None /\
  snd (writeLog_body 0 ERROR "b" t_14_30_46 closed) = Normal.
Proof.
  cbv zeta.
  pose proof (saveLogs_body_then_writeLog_body 0 0
                (mkWriteStream "logs/2025-10-19_14-30-45.log" 0 false)
                (run [Emit INFO "a" t_14_30_45 t_14_30_45; Settle 0 MkdirDone] initial)
                ERROR "b" t_14_30_46 eq_refl eq_refl) as H.
  cbv zeta in H. destruct H as (_ & _ & N & _ & W & _).
  split; [exact N | now rewrite W].
Defined.

(** ** One step of a run, field by field *)

Section Steps.

(** What resuming the [k]-th suspended initialisation changes. *)
Lemma settle_fields (k : nat) (o : MkdirOutcome) (s : State) :
  match suspended s !! k with
  | None => settle k o s = s
  | Some this =>
      suspended (settle k o s) = delete k (suspended s) /\
      instance (settle k o s) = instance s /\
      written (settle k o s) = written s /\
      match heap s !! this, o with
      | Some obj, MkdirDone =>
          heap (settle k o s) =
            alter (fun x => mkLogKeeper (Some (length (streams s))) (logDir x) (logFile x))
                  this (heap s) /\
          streams (settle k o s) = streams s ++ [mkWriteStream (logFile obj) 0 false] /\
          dirs (settle k o s) = add_missing (dirs s) (ancestors (logDir obj)) /\
          console (settle k o s) = console s
      | Some obj, MkdirFails e =>
          heap (settle k o s) = heap s /\ streams (settle k o s) = streams s /\
          dirs (settle k o s) = dirs s /\
          console (settle k o s) =
            console s ++ ["Failed to initialize LogKeeper: " +:+ e]
      | None, _ =>
          heap (settle k o s) = heap s /\ streams (settle k o s) = streams s /\
          dirs (settle k o s) = dirs s /\ console (settle k o s) = console s
      end
  end.
Proof.
  unfold settle. destruct (suspended s !! k) as [this|]; [| reflexivity].
  unfold initializeLogger_resume. cbn [heap set_suspended].
  destruct (heap s !! this) as [obj|]; [| now repeat split].
  destruct o as [|e]; now repeat split.
Qed.

Lemma step_heap_length (s : State) (e : Event) :
  length (heap (step s e)) =
  (length (heap s) + (if is_call e then 1 else 0))%nat.
Proof.
  destruct e as [level message created now | created o | k o]; cbn [step is_call].
  - rewrite writeLog_unfold, getInstance_unfold. cbn. now rewrite length_app.
  - rewrite saveLogs_unfold, getInstance_unfold. cbn. now rewrite length_app.
  - pose proof (settle_fields k o s) as F.
    destruct (suspended s !! k) as [this|]; [| rewrite F; lia].
    destruct F as (_ & _ & _ & F).
    destruct (heap s !! this) as [obj|]; [destruct o |];
      destruct F as (-> & _); rewrite ?length_alter; lia.
Qed.

Lemma reports_failure (e : string) :
  String.eqb "LogKeeper not initialized" ("Failed to initialize LogKeeper: " +:+ e)
  = false.
Proof. reflexivity. Qed.

Lemma step_reports (s : State) (e : Event) :
  reports (step s e) = (reports s + (if is_emit e then 1 else 0))%nat.
Proof.
  unfold reports.
  destruct e as [level message created now | created o | k o]; cbn [step is_emit].
  - rewrite writeLog_unfold, getInstance_unfold. cbn [fst console console_error].
    rewrite List.filter_app, length_app. reflexivity.
  - rewrite saveLogs_unfold, getInstance_unfold. cbn [fst console]. lia.
  - pose proof (settle_fields k o s) as F.
    destruct (suspended s !! k) as [this|]; [| rewrite F; lia].
    destruct F as (_ & _ & _ & F).
    destruct (heap s !! this) as [obj|]; [destruct o as [|err] |];
      destruct F as (_ & _ & _ & ->); try lia.
    rewrite List.filter_app, length_app. cbn [List.filter].
    rewrite reports_failure. cbn. lia.
Qed.

(** The streams of a state stay as they are, and what a step adds is a
    stream on which [end] was never called. *)
Lemma step_streams_grow (s : State) (e : Event) :
  exists more, streams (step s e) = streams s ++ more /\ Forall never_ended more.
Proof.
  destruct e as [level message created now | created o | k o]; cbn [step].
  - exists []. rewrite writeLog_unfold, getInstance_unfold. cbn.
    now rewrite app_nil_r.
  - exists []. rewrite saveLogs_unfold, getInstance_unfold. cbn.
    now rewrite app_nil_r.
  - pose proof (settle_fields k o s) as F.
    destruct (suspended s !! k) as [this|];
      [| exists []; rewrite F; now rewrite app_nil_r].
    destruct F as (_ & _ & _ & F).
    destruct (heap s !! this) as [obj|]; [destruct o as [|err] |].
    + destruct F as (_ & -> & _). eexists. split; [reflexivity |].
      constructor; [now split | constructor].
    + destruct F as (_ & -> & _). exists []. now rewrite app_nil_r.
    + destruct F as (_ & -> & _). exists []. now rewrite app_nil_r.
Qed.

Lemma run_snoc (events : list Event) (e : Event) (s : State) :
  run (events ++ [e]) s = step (run events s) e.
Proof. unfold run. now rewrite fold_left_app. Qed.

Lemma run_cons (events : list Event) (e : Event) (s : State) :
  run (e :: events) s = run events (step s e).
Proof. reflexivity. Qed.

End Steps.

(** ** Whole runs *)

Section WholeRuns.

Lemma step_instance (s : State) (e : Event) :
  instance (step s e) = if is_call e then Some (length (heap s)) else instance s.
Proof.
  destruct e as [level message created now | created o | k o]; cbn [step is_call].
  - now rewrite writeLog_unfold, getInstance_unfold.
  - now rewrite saveLogs_unfold, getInstance_unfold.
  - pose proof (settle_fields k o s) as F.
    destruct (suspended s !! k) as [this|]; [tauto | now rewrite F].
Qed.

Lemma calls_in_snoc (events : list Event) (e : Event) :
  calls_in (events ++ [e]) = (calls_in events + (if is_call e then 1 else 0))%nat.
Proof.
  unfold calls_in. rewrite List.filter_app, length_app. cbn [List.filter].
  now destruct (is_call e).
Qed.

Lemma emits_in_snoc (events : list Event) (e : Event) :
  emits_in (events ++ [e]) = (emits_in events + (if is_emit e then 1 else 0))%nat.
Proof.
  unfold emits_in. rewrite List.filter_app, length_app. cbn [List.filter].
  now destruct (is_emit e).
Qed.

Lemma run_heap_length (events : list Event) (s : State) :
  length (heap (run events s)) = (length (heap s) + calls_in events)%nat.
Proof.
  induction events as [|e events IH] using rev_ind.
  - cbn. lia.
  - rewrite run_snoc, step_heap_length, IH, calls_in_snoc. lia.
Qed.

Lemma run_streams_grow (events : list Event) (s : State) :
  exists more,
    streams (run events s) = streams s ++ more /\ Forall never_ended more.
Proof.
  induction events as [|e events IH] using rev_ind.
  - exists []. cbn. now rewrite app_nil_r.
  - destruct IH as (more & E & F). rewrite run_snoc.
    destruct (step_streams_grow (run events s) e) as (more' & E' & F').
    exists (more ++ more'). rewrite E', E, <- app_assoc. split; [reflexivity |].
    apply Forall_app. now split.
Qed.

End WholeRuns.

(** X10. No run of the program writes: whatever is called, in whatever
    order, and whatever the file system answers, no chunk is handed to a
    stream, and from the start of the program every file stays empty. *)
Theorem no_run_writes (events : list Event) (s : State) (path : string) :
  written (run events s) = written s /\
  file_content (run events initial) path = "".
Proof.
  split; [apply run_written |].
  apply file_content_nothing_written. now rewrite run_written.
Qed.

(** X11. No run of the program closes a stream: the streams of a state are
    still there, unchanged, after any run from it, and every stream the run
    has opened is one on which [end] was never called. *)
Theorem streams_only_grow (events : list Event) (s : State) :
  exists more,
    streams (run events s) = streams s ++ more /\ Forall never_ended more.
Proof. apply run_streams_grow. Qed.

(** X12. Every call of a logging method or of [saveLogs] puts one more object
    on the heap and none is ever removed; the static field refers to the
    object of the last call. *)
Theorem one_object_per_call (events : list Event) (s : State) :
  length (heap (run events s)) = (length (heap s) + calls_in events)%nat /\
  instance (run events s) =
    match calls_in events with
    | O => instance s
    | S n => Some (length (heap s) + n)%nat
    end.
Proof.
  split; [apply run_heap_length |].
  induction events as [|e events IH] using rev_ind; [reflexivity |].
  rewrite run_snoc, step_instance, calls_in_snoc, run_heap_length.
  destruct (is_call e).
  - replace (calls_in events + 1)%nat with (S (calls_in events)) by lia. reflexivity.
  - rewrite IH, Nat.add_0_r. reflexivity.
Qed.

(** X13. The console holds one report of an uninitialised logger for each
    logging call of the run, no more and no fewer: [saveLogs] and the
    event loop add none. *)
Theorem one_report_per_emit (events : list Event) (s : State) :
  reports (run events s) = (reports s + emits_in events)%nat.
Proof.
  induction events as [|e events IH] using rev_ind.
  - cbn. lia.
  - rewrite run_snoc, step_reports, IH, emits_in_snoc. lia.
Qed.

(** ** Objects whose initialisation is over *)

Section Frozen.

Lemma step_frozen (s : State) (e : Event) (i : nat) (obj : LogKeeperObj) :
  heap s !! i = Some obj -> i ∉ suspended s ->
  heap (step s e) !! i = Some obj /\ i ∉ suspended (step s e).
Proof.
  intros Hobj Hout. pose proof (lookup_lt_Some _ _ _ Hobj) as Hlt.
  assert (Calls : forall now,
            heap (fst (getInstance now s)) !! i = Some obj /\
            i ∉ suspended (fst (getInstance now s))).
  { intros now. rewrite getInstance_unfold. cbn [fst heap suspended]. split.
    - now rewrite lookup_app_l.
    - intros H. apply elem_of_app in H. destruct H as [H | H]; [now apply Hout |].
      apply list_elem_of_singleton in H. lia. }
  destruct e as [level message created now | created o | k o]; cbn [step].
  - rewrite writeLog_unfold. cbn [fst console_error heap suspended]. apply Calls.
  - rewrite saveLogs_unfold. cbn [fst]. apply Calls.
  - pose proof (settle_fields k o s) as F.
    destruct (suspended s !! k) as [this|] eqn:Hk; [| now rewrite F].
    destruct F as (-> & _ & _ & F).
    assert (Hne : this <> i).
    { intros ->. apply Hout. eapply list_elem_of_lookup_2, Hk. }
    split; [| intros H; apply Hout; eapply list_elem_of_delete_inv, H].
    destruct (heap s !! this) as [x|]; [destruct o as [|err] |];
      destruct F as (-> & _); try assumption.
    now rewrite list_lookup_alter_ne.
Qed.

Lemma run_frozen (events : list Event) (s : State) (i : nat) (obj : LogKeeperObj) :
  heap s !! i = Some obj -> i ∉ suspended s ->
  heap (run events s) !! i = Some obj /\ i ∉ suspended (run events s).
Proof.
  revert s. induction events as [|e events IH]; intros s Hobj Hout; [now split |].
  rewrite run_cons. destruct (step_frozen s e i obj Hobj Hout) as [H1 H2].
  now apply IH.
Qed.

End Frozen.

(** X14. An object whose initialisation is over, well or not, never changes
    again: after any run it is the same object, still not suspended.  So a
    failed initialisation is not tried again, and a stream an object holds
    stays with it, in the table as it was: nothing the program can call
    ends it or takes it from the object. *)
Theorem initialised_object_is_final (events : list Event) (s : State)
    (i : nat) (obj : LogKeeperObj) :
  heap s !! i = Some obj -> i ∉ suspended s ->
  heap (run events s) !! i = Some obj /\
  (i ∉ suspended (run events s)) /\
  writeStream_of (run events s) i = writeStream obj /\
  (forall st w, writeStream obj = Some st -> streams s !! st = Some w ->
                streams (run events s) !! st = Some w).
Proof.
  intros Hobj Hout. destruct (run_frozen events s i obj Hobj Hout) as [H1 H2].
  repeat split; try assumption.
  - unfold writeStream_of. now rewrite H1.
  - intros st w _ Hst. destruct (run_streams_grow events s) as (more & -> & _).
    rewrite lookup_app_l; [exact Hst |]. eapply lookup_lt_Some, Hst.
Qed.

Lemma initialised_object_is_final_witness :
  let s := run [Emit INFO "a" t_14_30_45 t_14_30_45; Settle 0 MkdirDone] initial in
  let later := run [Emit ERROR "b" t_14_30_46 t_14_30_46; Close t_14_30_47 EndDone;
                    Settle 1 (MkdirFails "EACCES")] s in
  writeStream_of later 0 = Some 0%nat /\
  streams later !! 0%nat = Some (mkWriteStream "logs/2025-10-19_14-30-45.log" 0 false).
Proof.
  cbv zeta.
  assert (Hout : 0%nat ∉
            suspended (run [Emit INFO "a" t_14_30_45 t_14_30_45; Settle 0 MkdirDone] initial)).
  { intros H. inversion H. }
  pose proof (initialised_object_is_final
                [Emit ERROR "b" t_14_30_46 t_14_30_46; Close t_14_30_47 EndDone;
                 Settle 1 (MkdirFails "EACCES")]
                (run [Emit INFO "a" t_14_30_45 t_14_30_45; Settle 0 MkdirDone] initial)
                0 (mkLogKeeper (Some 0%nat) "logs" "logs/2025-10-19_14-30-45.log")
                eq_refl Hout) as (_ & _ & W & S).
  split; [exact W |]. exact (S 0%nat _ eq_refl eq_refl).
Defined.

(** ** The shape of the states a run reaches *)

Section Shape.

Lemma shape_initial : reachable_shape initial.
Proof.
  constructor; cbn; try (intros; exfalso; eapply not_elem_of_nil; eassumption);
    try discriminate; auto using NoDup_nil_2.
Qed.

Lemma shape_console (line : string) (s : State) :
  reachable_shape s -> reachable_shape (console_error line s).
Proof. intros [B N P L St U I D]. constructor; assumption. Qed.

Lemma writeStream_of_getInstance (now : Date) (s : State) (i : nat) :
  writeStream_of (fst (getInstance now s)) i = writeStream_of s i.
Proof.
  rewrite getInstance_unfold. unfold writeStream_of. cbn [fst heap].
  destruct (decide (i < length (heap s))%nat) as [Hlt | Hge].
  - now rewrite lookup_app_l.
  - rewrite (lookup_ge_None_2 (heap s) i) by lia.
    destruct (decide (i = length (heap s))) as [-> | Hne].
    + now rewrite list_lookup_middle.
    + rewrite lookup_ge_None_2; [reflexivity |]. rewrite length_app. cbn. lia.
Qed.

Lemma heap_getInstance (now : Date) (s : State) (i : nat) (obj : LogKeeperObj) :
  heap (fst (getInstance now s)) !! i = Some obj ->
  heap s !! i = Some obj \/ obj = fresh_object now.
Proof.
  rewrite getInstance_unfold. cbn [fst heap]. intros H.
  apply lookup_app_Some in H. destruct H as [H | [_ H]]; [now left |].
  right. destruct (i - length (heap s))%nat; cbn in H; [congruence | discriminate].
Qed.

Lemma shape_getInstance (now : Date) (s : State) :
  reachable_shape s -> reachable_shape (fst (getInstance now s)).
Proof.
  intros [B N P L St U I D]. constructor.
  - rewrite getInstance_unfold. cbn [fst heap suspended]. intros i H.
    rewrite length_app. cbn [length]. apply elem_of_app in H.
    destruct H as [H | H]; [specialize (B i H); lia |].
    apply list_elem_of_singleton in H. lia.
  - rewrite getInstance_unfold. cbn [fst suspended]. apply NoDup_app.
    split; [exact N |]. split; [| apply NoDup_singleton].
    intros i H H'. apply list_elem_of_singleton in H'. specialize (B i H). lia.
  - intros i H. rewrite writeStream_of_getInstance.
    rewrite getInstance_unfold in H. cbn [fst suspended] in H.
    apply elem_of_app in H. destruct H as [H | H]; [now apply P |].
    apply list_elem_of_singleton in H. subst i. unfold writeStream_of.
    now rewrite lookup_ge_None_2.
  - intros i obj H. apply heap_getInstance in H.
    destruct H as [H | ->]; [now apply (L i) | reflexivity].
  - intros i obj st H Hst. apply heap_getInstance in H.
    destruct H as [H | ->]; [| discriminate Hst].
    rewrite getInstance_unfold. cbn [fst streams]. now apply (St i).
  - intros i j st. rewrite !writeStream_of_getInstance. apply U.
  - rewrite getInstance_unfold. cbn [fst instance heap].
    rewrite length_app. cbn [length]. lia.
  - rewrite getInstance_unfold. exact D.
Qed.

Lemma NoDup_lookup_delete (l : list nat) (k x : nat) :
  NoDup l -> l !! k = Some x -> x ∉ delete k l.
Proof.
  intros N Hk. rewrite delete_take_drop.
  rewrite <- (take_drop_middle l k x Hk) in N.
  apply NoDup_app in N. destruct N as (_ & Hdis & N').
  apply NoDup_cons in N'. destruct N' as [Hnot _].
  intros H. apply elem_of_app in H. destruct H as [H | H]; [| now apply Hnot].
  apply (Hdis x H). left.
Qed.

Lemma add_missing_logs (ds : list string) :
  ds = [] \/ ds = ["logs"] -> add_missing ds (ancestors "logs") = ["logs"].
Proof. intros [-> | ->]; reflexivity. Qed.

Lemma shape_settle (k : nat) (o : MkdirOutcome) (s : State) :
  reachable_shape s -> reachable_shape (settle k o s).
Proof.
  intros Sh. pose proof Sh as [B N P L St U I D].
  pose proof (settle_fields k o s) as F.
  destruct (suspended s !! k) as [this|] eqn:Hk; [| now rewrite F].
  destruct F as (Fsusp & Finst & _ & F).
  assert (Hthis : this ∈ suspended s) by (eapply list_elem_of_lookup_2, Hk).
  assert (Hgone : this ∉ delete k (suspended s)) by now apply NoDup_lookup_delete.
  assert (Nsusp : NoDup (delete k (suspended s)))
    by (eapply sublist_NoDup; [exact N | apply sublist_delete]).
  assert (Keep : forall i, i ∈ delete k (suspended s) -> i ∈ suspended s)
    by (intros i; apply list_elem_of_delete_inv).
  destruct (heap s !! this) as [obj|] eqn:Hobj; [destruct o as [|err] |].
  - (* the stream is opened *)
    destruct F as (Fheap & Fstreams & Fdirs & _).
    assert (Other : forall i, i <> this ->
              writeStream_of (settle k MkdirDone s) i = writeStream_of s i).
    { intros i Hne. unfold writeStream_of. rewrite Fheap.
      now rewrite list_lookup_alter_ne. }
    assert (Mine : writeStream_of (settle k MkdirDone s) this =
                   Some (length (streams s))).
    { unfold writeStream_of. now rewrite Fheap, list_lookup_alter_eq, Hobj. }
    assert (Old : forall i st, i <> this -> writeStream_of s i = Some st ->
                    (st < length (streams s))%nat).
    { intros i st _ Hst. unfold writeStream_of in Hst.
      destruct (heap s !! i) as [x|] eqn:Hx; [| discriminate].
      destruct (St i x st Hx Hst) as (w & Hw & _). eapply lookup_lt_Some, Hw. }
    constructor.
    + rewrite Fsusp, Fheap, length_alter. auto.
    + now rewrite Fsusp.
    + rewrite Fsusp. intros i Hi. rewrite Other; [auto |]. now intros ->.
    + rewrite Fheap. intros i x Hx. rewrite list_lookup_alter in Hx.
      destruct (decide (this = i)) as [-> | Hne]; [| now apply (L i)].
      rewrite Hobj in Hx. cbn in Hx. injection Hx as <-. cbn. now apply (L i obj).
    + rewrite Fheap, Fstreams. intros i x st Hx Hst. rewrite list_lookup_alter in Hx.
      destruct (decide (this = i)) as [-> | Hne].
      * rewrite Hobj in Hx. cbn in Hx. injection Hx as <-. cbn in Hst.
        injection Hst as <-. eexists. split; [now apply list_lookup_middle |].
        reflexivity.
      * destruct (St i x st Hx Hst) as (w & Hw & Hp). exists w. split; [| exact Hp].
        rewrite lookup_app_l; [exact Hw |]. eapply lookup_lt_Some, Hw.
    + intros i j st Hi Hj.
      destruct (decide (i = this)) as [-> | Hni], (decide (j = this)) as [-> | Hnj];
        try reflexivity.
      * rewrite Mine in Hi. injection Hi as <-. rewrite Other in Hj by assumption.
        pose proof (Old j _ Hnj Hj). lia.
      * rewrite Mine in Hj. injection Hj as <-. rewrite Other in Hi by assumption.
        pose proof (Old i _ Hni Hi). lia.
      * rewrite Other in Hi, Hj by assumption. now apply (U i j st).
    + rewrite Finst, Fheap, length_alter.
      destruct (instance s); [exact I | now rewrite I in Hobj].
    + rewrite Fdirs, (L this obj Hobj). right. now apply add_missing_logs.
  - (* mkdir fails *)
    destruct F as (Fheap & Fstreams & Fdirs & _).
    constructor; unfold writeStream_of;
      rewrite ?Fsusp, ?Fheap, ?Fstreams, ?Fdirs, ?Finst; auto.
    intros i Hi. apply (P i). auto.
  - destruct F as (Fheap & Fstreams & Fdirs & _).
    constructor; unfold writeStream_of;
      rewrite ?Fsusp, ?Fheap, ?Fstreams, ?Fdirs, ?Finst; auto.
    intros i Hi. apply (P i). auto.
Qed.

Lemma shape_step (s : State) (e : Event) :
  reachable_shape s -> reachable_shape (step s e).
Proof.
  intros Sh. destruct e as [level message created now | created o | k o]; cbn [step].
  - rewrite writeLog_unfold. cbn [fst]. now apply shape_console, shape_getInstance.
  - rewrite saveLogs_unfold. cbn [fst]. now apply shape_getInstance.
  - now apply shape_settle.
Qed.

Lemma shape_run (events : list Event) (s : State) :
  reachable_shape s -> reachable_shape (run events s).
Proof.
  revert s. induction events as [|e events IH]; intros s Sh; [exact Sh |].
  rewrite run_cons. now apply IH, shape_step.
Qed.

End Shape.

(** X15. The only directory the program ever creates is [logs], and it
    creates it once: after any run from the start there is no directory
    or just that one. *)
Theorem only_logs_is_created (events : list Event) :
  dirs (run events initial) = [] \/ dirs (run events initial) = ["logs"].
Proof. apply (shape_dirs _ (shape_run events initial shape_initial)). Qed.

(** X16. In every state a run reaches from the start, an object that holds
    a stream holds one of the table that appends to the object's own file
    and on which [end] was never called; no two objects hold the same
    stream; and an object whose initialisation is still suspended holds
    none. *)
Theorem streams_belong_to_objects (events : list Event) :
  let s := run events initial in
  (forall i obj st,
     heap s !! i = Some obj -> writeStream obj = Some st ->
     exists w, streams s !! st = Some w /\ ws_path w = logFile obj /\
               never_ended w) /\
  (forall i j st,
     writeStream_of s i = Some st -> writeStream_of s j = Some st -> i = j) /\
  (forall i, i ∈ suspended s -> writeStream_of s i = None).
Proof.
  cbv zeta. pose proof (shape_run events initial shape_initial) as Sh.
  split; [| split].
  - intros i obj st Hobj Hst.
    destruct (shape_stream _ Sh i obj st Hobj Hst) as (w & Hw & Hp).
    exists w. repeat split; try assumption;
      pose proof (run_streams events initial (Forall_nil_2 _)) as F;
      rewrite Forall_lookup in F; apply (F st w Hw).
  - apply (shape_unshared _ Sh).
  - apply (shape_pending _ Sh).
Qed.

(** X17. The level and the message of a logging call have no effect: called
    in the same state with the same clock reading in the constructor, any
    two of [info], [warning], [error] and [critical], with any two
    messages, leave the same state and return alike. *)
Theorem level_and_message_are_ignored
    (level level' : LogLevel) (message message' : string)
    (created now now' : Date) (s : State) :
  writeLog level message created now s = writeLog level' message' created now' s /\
  info message created now s = critical message' created now' s /\
  warning message created now s = error message' created now' s.
Proof.
  unfold info, critical, warning, error. now rewrite !writeLog_unfold.
Qed.

Section Collisions.

Variables (d1 d2 : Date) (s : State).

Lemma settle_first_of_two :
  let s2 := fst (getInstance d2 (fst (getInstance d1 s))) in
  suspended s2 !! length (suspended s) = Some (length (heap s)) /\
  heap s2 !! length (heap s) = Some (fresh_object d1) /\
  heap s2 !! S (length (heap s)) = Some (fresh_object d2) /\
  delete (length (suspended s)) (suspended s2) =
    suspended s ++ [S (length (heap s))] /\
  streams s2 = streams s /\ dirs s2 = dirs s.
Proof.
  cbv zeta. rewrite !getInstance_unfold. cbn [fst heap suspended streams dirs].
  rewrite length_app. cbn [length]. rewrite Nat.add_1_r.
  rewrite <- !app_assoc. cbn [app].
  repeat split.
  - now apply list_lookup_middle.
  - now apply list_lookup_middle.
  - change (heap s ++ [fresh_object d1; fresh_object d2])
      with (heap s ++ [fresh_object d1] ++ [fresh_object d2]).
    rewrite app_assoc. apply list_lookup_middle. rewrite length_app. cbn. lia.
  - apply delete_middle.
Qed.

End Collisions.

(** X18. Two objects created at clock readings that agree up to the second
    are given the same file, and when both initialisations go through,
    two streams are open on it, one held by each object. *)
Theorem same_second_one_file (d1 d2 : Date) (s : State) :
  same_second d1 d2 ->
  let s2 := fst (getInstance d2 (fst (getInstance d1 s))) in
  let s3 := settle (length (suspended s)) MkdirDone s2 in
  let s4 := settle (length (suspended s)) MkdirDone s3 in
  let path := join "logs" (formatFilenameTimestamp d1 +:+ ".log") in
  streams s4 =
    streams s ++ [mkWriteStream path 0 false; mkWriteStream path 0 false] /\
  writeStream_of s4 (length (heap s)) = Some (length (streams s)) /\
  writeStream_of s4 (S (length (heap s))) = Some (S (length (streams s))).
Proof.
  intros (Ey & Emo & Ed & Eh & Emi & Es).
  assert (Name : formatFilenameTimestamp d2 = formatFilenameTimestamp d1).
  { unfold formatFilenameTimestamp. now rewrite Ey, Emo, Ed, Eh, Emi, Es. }
  intros s2 s3 s4 path.
  pose proof (settle_first_of_two d1 d2 s) as T. cbv zeta in T. fold s2 in T.
  destruct T as (K1 & H1 & H2 & Del & St2 & _).
  pose proof (settle_fields (length (suspended s)) MkdirDone s2) as F3.
  rewrite K1, H1 in F3. fold s3 in F3.
  destruct F3 as (Su3 & _ & _ & He3 & St3 & _).
  rewrite Del in Su3. rewrite St2 in St3, He3.
  pose proof (settle_fields (length (suspended s)) MkdirDone s3) as F4.
  rewrite Su3, list_lookup_middle in F4 by reflexivity.
  assert (H3 : heap s3 !! S (length (heap s)) = Some (fresh_object d2)).
  { rewrite He3, list_lookup_alter_ne by lia. exact H2. }
  rewrite H3 in F4. fold s4 in F4. destruct F4 as (_ & _ & _ & He4 & St4 & _).
  rewrite St3 in St4, He4. rewrite length_app in He4. cbn [length] in He4.
  repeat split.
  - rewrite St4, <- app_assoc. cbn [app fresh_object logFile]. now rewrite Name.
  - unfold writeStream_of.
    rewrite He4, list_lookup_alter_ne, He3, list_lookup_alter_eq, H1 by lia.
    reflexivity.
  - unfold writeStream_of. rewrite He4, list_lookup_alter_eq, H3. cbn.
    f_equal. lia.
Qed.

Lemma same_second_one_file_witness :
  same_second t_14_30_45 (mkDate 2025 9 19 14 30 45 999) /\
  map ws_path
    (streams (settle 0 MkdirDone (settle 0 MkdirDone
       (fst (getInstance (mkDate 2025 9 19 14 30 45 999)
               (fst (getInstance t_14_30_45 initial))))))) =
  ["logs/2025-10-19_14-30-45.log"; "logs/2025-10-19_14-30-45.log"].
Proof.
  assert (Same : same_second t_14_30_45 (mkDate 2025 9 19 14 30 45 999))
    by (now repeat split).
  split; [exact Same |].
  pose proof (same_second_one_file _ _ initial Same) as H. cbv zeta in H.
  destruct H as (H & _). cbn [suspended initial length] in H. rewrite H.
  reflexivity.
Defined.

(** X19. When the [mkdir] of an initialisation fails, the failure goes to
    [console.error] as one line and nothing else happens: no directory
    and no stream appear, the object is left without a stream, and the
    initialisation is not suspended again, so that after any further run
    the object is still without a stream. *)
Theorem failed_initialisation_is_final
    (now : Date) (e : string) (s : State) (events : list Event) :
  reachable_shape s ->
  let s1 := fst (getInstance now s) in
  let s2 := settle (length (suspended s)) (MkdirFails e) s1 in
  console s2 = console s ++ ["Failed to initialize LogKeeper: " +:+ e] /\
  dirs s2 = dirs s /\ streams s2 = streams s /\ suspended s2 = suspended s /\
  heap s2 = heap s ++ [fresh_object now] /\
  writeStream_of (run events s2) (length (heap s)) = None.
Proof.
  intros Sh s1 s2.
  assert (Es : suspended s1 = suspended s ++ [length (heap s)]) by reflexivity.
  assert (Eh : heap s1 = heap s ++ [fresh_object now]) by reflexivity.
  assert (Et : streams s1 = streams s) by reflexivity.
  assert (Ed : dirs s1 = dirs s) by reflexivity.
  assert (Ec : console s1 = console s) by reflexivity.
  pose proof (settle_fields (length (suspended s)) (MkdirFails e) s1) as F.
  fold s2 in F. rewrite Es, list_lookup_middle in F by reflexivity.
  rewrite Eh, list_lookup_middle in F by reflexivity.
  rewrite delete_middle, app_nil_r, Et, Ed, Ec in F.
  destruct F as (Su & _ & _ & He & St & Di & Co).
  repeat split; try assumption.
  assert (Hobj : heap s2 !! length (heap s) = Some (fresh_object now))
    by (rewrite He; now apply list_lookup_middle).
  assert (Hout : length (heap s) ∉ suspended s2).
  { rewrite Su. intros H. pose proof (shape_bound _ Sh _ H). lia. }
  destruct (run_frozen events s2 _ _ Hobj Hout) as [H _].
  unfold writeStream_of. now rewrite H.
Qed.

Lemma failed_initialisation_is_final_witness :
  reachable_shape initial /\
  console (settle 0 (MkdirFails "EACCES") (fst (getInstance t_14_30_45 initial))) =
  ["Failed to initialize LogKeeper: EACCES"].
Proof.
  split; [exact shape_initial |].
  exact (proj1 (failed_initialisation_is_final t_14_30_45 "EACCES" initial []
                  shape_initial)).
Defined.
